(** * Post repository of the blog front end: listing, pagination, realtime

    A shallow embedding of [src/lib/posts.ts] and of its extended copy
    [src/lib/posts copy 1.ts]: the plain listing [getPosts] (both files),
    the paginated and filtered listing [getPostsWithOptions] and the
    realtime listing [subscribeToPostsRealtime] (the copy only).

    The document store (the [firebase/firestore] SDK) is an external
    collaborator.  The functions of the repository are embedded as the
    requests they make to it; what the store answers is either left
    arbitrary (a handler passed to [run]) or given by the executable model
    of the module [Store] below. *)

From Stdlib Require Import ZArith Lia.
From stdpp Require Import base strings gmap list sorting.

(** ** JavaScript values and objects *)

(** The values a post document carries.  A Firestore [Timestamp] is a pair
    of seconds and nanoseconds. *)
Inductive JsValue : Type :=
| JUndefined
| JNull
| JBool (b : bool)
| JNumber (n : Z)
| JString (s : string)
| JTimestamp (seconds nanoseconds : Z).

#[global] Instance JsValue_eq_dec : EqDecision JsValue.
Proof. solve_decision. Defined.

(** A plain object ([DocumentData], an object literal): a finite map from
    property names to values. *)
Abbreviation JsObject := (gmap string JsValue).

(** Property read [o.k]: a missing property reads as [undefined]. *)
Definition prop (o : JsObject) (k : string) : JsValue :=
  default JUndefined (o !! k).

(** [QueryDocumentSnapshot<DocumentData>]: the opaque identifier [doc.id]
    and the field mapping [doc.data()].  The snapshot itself is the
    store-native handle used as pagination cursor. *)
Record Doc : Type := mkDoc {
  doc_id : string;
  doc_data : JsObject;
}.

#[global] Instance Doc_eq_dec : EqDecision Doc.
Proof. solve_decision. Defined.

(** JavaScript truthiness of a string: only the empty string is falsy. *)
Definition truthy_string (s : string) : bool := negb (String.eqb s "").

(** Modelled from the spec: the type [Category] of [@/types], which is not
    among the sources.  The data model describes it as an enum tag from a
    closed set of topics; at run time a tag is a string literal, and no
    topic is the empty string. *)
Record Category : Type := mkCategory {
  tag : string;
  tag_truthy : truthy_string tag = true;
}.

(** ** Queries *)

Inductive Direction : Type := asc | desc.

#[global] Instance Direction_eq_dec : EqDecision Direction.
Proof. solve_decision. Defined.

(** The [QueryConstraint]s the repository builds: [where(f, "==", v)],
    [orderBy(f, dir)], [startAfter(snapshot)] and [limit(n)], as data.
    The check that [limit] makes of its argument when it builds the
    constraint is [callGetPostsWithOptions] below. *)
Inductive QueryConstraint : Type :=
| where_eq (fieldPath : string) (value : JsValue)
| orderBy (fieldPath : string) (direction : Direction)
| startAfter (snapshot : Doc)
| limit (n : Z).

#[global] Instance QueryConstraint_eq_dec : EqDecision QueryConstraint.
Proof. solve_decision. Defined.

(** [query(collection(db, name), ...constraints)]. *)
Record Query : Type := query {
  q_collection : string;
  q_constraints : list QueryConstraint;
}.

#[global] Instance Query_eq_dec : EqDecision Query.
Proof. solve_decision. Defined.

(** [FirestoreError]: opaque to the repository. *)
Record FirestoreError : Type := mkError {
  err_code : string;
  err_message : string;
}.

#[global] Instance FirestoreError_eq_dec : EqDecision FirestoreError.
Proof. solve_decision. Defined.

(** ** Asynchronous calls

    An [async] function of the repository is the tree of its requests to
    the store.  [AwaitGetDocs q k] is [const snapshot = await getDocs(q)]
    followed by [k snapshot.docs]; there is no [try] in the sources, so a
    rejected [getDocs] rejects the whole call with the same error. *)
Inductive Call (A : Type) : Type :=
| Return (a : A)
| AwaitGetDocs (q : Query) (k : list Doc -> Call A).

Arguments Return {A} a.
Arguments AwaitGetDocs {A} q k.

(** How a promise settles. *)
Inductive Outcome (A : Type) : Type :=
| Fulfilled (a : A)
| Rejected (e : FirestoreError).

Arguments Fulfilled {A} a.
Arguments Rejected {A} e.

#[global] Instance Outcome_eq_dec {A : Type} `{EqDecision A} :
  EqDecision (Outcome A).
Proof. solve_decision. Defined.

(** [run getDocs c]: the outcome of the call [c] against a store that
    answers [getDocs], together with the queries issued, in order. *)
Fixpoint run {A : Type} (getDocs : Query -> Outcome (list Doc)) (c : Call A)
  : Outcome A * list Query :=
  match c with
  | Return a => (Fulfilled a, [])
  | AwaitGetDocs q k =>
      match getDocs q with
      | Rejected e => (Rejected e, [q])
      | Fulfilled docs =>
          let '(r, issued) := run getDocs (k docs) in (r, q :: issued)
      end
  end.

(** ** Array helpers *)

(** [constraints.push(c)]. *)
Definition push {A : Type} (l : list A) (x : A) : list A := l ++ [x].

(** Relative index of [Array.prototype.slice]: a negative index counts
    from the end, and the result is clamped to [0 .. len]. *)
Definition rel_index (len i : Z) : Z :=
  if (i <? 0)%Z then Z.max (len + i) 0 else Z.min i len.

(** [l.slice(start, end)] for integer arguments. *)
Definition slice {A : Type} (l : list A) (start end_ : Z) : list A :=
  let len := Z.of_nat (length l) in
  let k := rel_index len start in
  let final := rel_index len end_ in
  take (Z.to_nat (final - k)) (drop (Z.to_nat k) l).

(** [l.length > n]. *)
Definition length_gt {A : Type} (l : list A) (n : Z) : bool :=
  bool_decide (n < Z.of_nat (length l))%Z.

(** [l.length > 0 ? l[l.length - 1] : null]. *)
Definition last_or_null {A : Type} (l : list A) : option A :=
  if length_gt l 0 then l !! (length l - 1)%nat else None.

(** ** src/lib/posts.ts *)

Definition POSTS_COLLECTION : string := "posts".

Module Posts.

(** The object literal of [getPosts]: the nine [PostSummary] fields. *)
Definition toPostSummary (doc : Doc) : JsObject :=
  let data := doc_data doc in
  list_to_map
    [ ("id", JString (doc_id doc));
      ("title", prop data "title");
      ("category", prop data "category");
      ("createdAt", prop data "createdAt");
      ("authorId", prop data "authorId");
      ("authorEmail", prop data "authorEmail");
      ("authorDisplayName", prop data "authorDisplayName");
      ("viewCount", prop data "viewCount");
      ("thumbnailUrl", prop data "thumbnailUrl") ].

Definition getPosts : Call (list JsObject) :=
  let q := query POSTS_COLLECTION [orderBy "createdAt" desc] in
  AwaitGetDocs q (fun docs => Return (map toPostSummary docs)).

End Posts.

(** ** src/lib/posts copy 1.ts *)

Module PostsCopy1.

Definition postsCollection : string := POSTS_COLLECTION.

Definition toPostSummary (docSnap : Doc) : JsObject :=
  let data := doc_data docSnap in
  list_to_map
    [ ("id", JString (doc_id docSnap));
      ("title", prop data "title");
      ("category", prop data "category");
      ("createdAt", prop data "createdAt");
      ("authorId", prop data "authorId");
      ("authorEmail", prop data "authorEmail");
      ("authorDisplayName", prop data "authorDisplayName");
      ("viewCount", prop data "viewCount");
      ("thumbnailUrl", prop data "thumbnailUrl") ].

Definition getPosts : Call (list JsObject) :=
  let q := query postsCollection [orderBy "createdAt" desc] in
  AwaitGetDocs q (fun docs => Return (map toPostSummary docs)).

(** [GetPostsOptions]: every property is optional; [undefined] and [null]
    are both [None] (the destructuring defaults turn [undefined] into
    [null], and the code only tests truthiness).  A call without argument
    has the options [{}], all [None].  [limitCount] is a count, hence an
    integer. *)
Record GetPostsOptions : Type := mkOptions {
  opt_category : option Category;
  opt_limitCount : option Z;
  opt_lastDoc : option Doc;
}.

Record GetPostsResult : Type := mkResult {
  posts : list JsObject;
  lastDoc : option Doc;
  hasMore : bool;
}.

(** [const { limitCount = 5 } = options]. *)
Definition limitCountOf (options : GetPostsOptions) : Z :=
  match opt_limitCount options with
  | Some n => n
  | None => 5%Z
  end.

(** The object literal of [getPostsWithOptions] and of the listener of
    [subscribeToPostsRealtime]: six properties. *)
Definition toListItem (doc : Doc) : JsObject :=
  let data := doc_data doc in
  list_to_map
    [ ("id", JString (doc_id doc));
      ("title", prop data "title");
      ("category", prop data "category");
      ("authorEmail", prop data "authorEmail");
      ("authorDisplayName", prop data "authorDisplayName");
      ("createdAt", prop data "createdAt") ].

(** [if (category) constraints.push(where("category", "==", category))]. *)
Definition push_category (constraints : list QueryConstraint)
    (category : option Category) : list QueryConstraint :=
  match category with
  | Some c =>
      if truthy_string (tag c)
      then push constraints (where_eq "category" (JString (tag c)))
      else constraints
  | None => constraints
  end.

(** [if (lastDoc) constraints.push(startAfter(lastDoc))]: a snapshot is an
    object, hence truthy. *)
Definition push_cursor (constraints : list QueryConstraint)
    (cursor : option Doc) : list QueryConstraint :=
  match cursor with
  | Some d => push constraints (startAfter d)
  | None => constraints
  end.

(** The query of [getPostsWithOptions] (lines 160-182), once [limit] has
    accepted its argument. *)
Definition pageQuery (options : GetPostsOptions) : Query :=
  let category := opt_category options in
  let limitCount := limitCountOf options in
  let lastDoc := opt_lastDoc options in
  let constraints := [] in
  let constraints := push_category constraints category in
  let constraints := push constraints (orderBy "createdAt" desc) in
  let constraints := push_cursor constraints lastDoc in
  let constraints := push constraints (limit (limitCount + 1)) in
  query postsCollection constraints.

(** What [getPostsWithOptions] makes of the snapshot (lines 186-208). *)
Definition pageOf (limitCount : Z) (snapshot_docs : list Doc)
  : GetPostsResult :=
  let hasMore := length_gt snapshot_docs limitCount in
  let docs :=
    if hasMore then slice snapshot_docs 0 limitCount else snapshot_docs in
  let posts := map toListItem docs in
  {| posts := posts; lastDoc := last_or_null docs; hasMore := hasMore |}.

Definition getPostsWithOptions (options : GetPostsOptions)
  : Call GetPostsResult :=
  AwaitGetDocs (pageQuery options)
    (fun snapshot_docs => Return (pageOf (limitCountOf options) snapshot_docs)).

(** *** Realtime listing *)

(** The caller's callback [(posts: PostSummary[]) => void] is arbitrary
    code; it is known by a name, and calling it is recorded as an
    [Invocation] with the argument it received. *)
Record Invocation : Type := invoke {
  inv_callback : string;
  inv_posts : list JsObject;
}.

(** A snapshot listener: the invocations it makes when the store hands it
    [snapshot.docs]. *)
Definition Listener : Type := list Doc -> list Invocation.

(** The options of [subscribeToPostsRealtime]. *)
Record SubscribeOptions : Type := mkSubscribeOptions {
  sub_category : option Category;
  sub_limitCount : option Z;
}.

(** [const { limitCount = 20 } = options]. *)
Definition subLimitCountOf (options : SubscribeOptions) : Z :=
  match sub_limitCount options with
  | Some n => n
  | None => 20%Z
  end.

(** The standing query of [subscribeToPostsRealtime] (lines 214-225). *)
Definition standingQuery (options : SubscribeOptions) : Query :=
  let category := sub_category options in
  let limitCount := subLimitCountOf options in
  let constraints := [] in
  let constraints := push_category constraints category in
  let constraints := push constraints (orderBy "createdAt" desc) in
  let constraints := push constraints (limit limitCount) in
  query postsCollection constraints.

(** The arrow function handed to [onSnapshot] (lines 228-242). *)
Definition snapshotListener (callback : string) : Listener :=
  fun snapshot_docs =>
    let posts := map toListItem snapshot_docs in
    [invoke callback posts].

(** [onSnapshot] of the SDK is a parameter: given a query and a listener
    it acts on the store and hands back the function that ends the
    subscription; [R] is whatever the store makes of that.  The function
    returns what [onSnapshot] returns. *)
Definition subscribeToPostsRealtime {R : Type}
    (onSnapshot : Query -> Listener -> R)
    (callback : string) (options : SubscribeOptions) : R :=
  onSnapshot (standingQuery options) (snapshotListener callback).

End PostsCopy1.

(** ** Document store *)

(** Modelled from the spec: the Document Store Client, that is [getDocs]
    and [onSnapshot] of the [firebase/firestore] SDK, is not part of the
    repository.  This is the capability surface of section 6 of the
    specification as an executable model: collections of documents,
    equality filters, a sort on a timestamp field, resuming after a
    document handle, a maximum result count, and standing queries that
    receive the full current result on registration and on every change
    of it. *)
Module Store.
Import PostsCopy1.

Definition where_clauses (cs : list QueryConstraint)
  : list (string * JsValue) :=
  omap (fun c => match c with where_eq f v => Some (f, v) | _ => None end) cs.

Definition order_clause (cs : list QueryConstraint)
  : option (string * Direction) :=
  head (omap (fun c => match c with orderBy f d => Some (f, d) | _ => None end) cs).

Definition cursor_clause (cs : list QueryConstraint) : option Doc :=
  head (omap (fun c => match c with startAfter d => Some d | _ => None end) cs).

Definition limit_clause (cs : list QueryConstraint) : option Z :=
  head (omap (fun c => match c with limit n => Some n | _ => None end) cs).

(** A document satisfies the equality filters when it has each field
    with exactly the given value. *)
Definition satisfies (ws : list (string * JsValue)) (d : Doc) : Prop :=
  Forall (fun w => doc_data d !! w.1 = Some w.2) ws.

#[global] Instance satisfies_dec ws d : Decision (satisfies ws d).
Proof. unfold satisfies. apply _. Defined.

(** The sort key of a document: its timestamp in nanoseconds.  A
    document without a timestamp in the sort field is not part of an
    ordered result. *)
Definition sort_key (f : string) (d : Doc) : option Z :=
  match doc_data d !! f with
  | Some (JTimestamp s n) => Some (s * 1000000000 + n)%Z
  | _ => None
  end.

Definition keyed (f : string) (l : list Doc) : list (Z * Doc) :=
  omap (fun d => match sort_key f d with Some k => Some (k, d) | None => None end) l.

Definition newest_first : relation (Z * Doc) :=
  fun p1 p2 => (p2.1 <= p1.1)%Z.

Definition oldest_first : relation (Z * Doc) :=
  fun p1 p2 => (p1.1 <= p2.1)%Z.

#[global] Instance newest_first_dec : RelDecision newest_first.
Proof. intros p1 p2. unfold newest_first. apply _. Defined.

#[global] Instance oldest_first_dec : RelDecision oldest_first.
Proof. intros p1 p2. unfold oldest_first. apply _. Defined.

Definition ordered (o : option (string * Direction)) (l : list Doc)
  : list Doc :=
  match o with
  | None => l
  | Some (f, desc) => (merge_sort newest_first (keyed f l)).*2
  | Some (f, asc) => (merge_sort oldest_first (keyed f l)).*2
  end.

(** The documents a query selects, in its order, before cursor and
    bound. *)
Definition matching (contents : string -> list Doc) (q : Query)
  : list Doc :=
  let cs := q_constraints q in
  ordered (order_clause cs)
    (filter (satisfies (where_clauses cs)) (contents (q_collection q))).

(** The part of an ordered result after the document [cursor] denotes. *)
Fixpoint after (cursor : Doc) (l : list Doc) : option (list Doc) :=
  match l with
  | [] => None
  | d :: l' =>
      if decide (doc_id d = doc_id cursor) then Some l' else after cursor l'
  end.

Definition cursor_not_found : FirestoreError :=
  mkError "not-found" "the cursor is not a document of the result".

Definition invalid_limit : FirestoreError :=
  mkError "invalid-argument" "limit() requires a positive number".

(** What a cursor that is not in the result does is left open by the
    specification; this store rejects the query. *)
Definition resume (cursor : option Doc) (l : list Doc)
  : Outcome (list Doc) :=
  match cursor with
  | None => Fulfilled l
  | Some c =>
      match after c l with
      | Some rest => Fulfilled rest
      | None => Rejected cursor_not_found
      end
  end.

(** A bound that is not positive is a malformed input; this store
    rejects it. *)
Definition bound (n : option Z) (l : list Doc) : Outcome (list Doc) :=
  match n with
  | None => Fulfilled l
  | Some n =>
      if bool_decide (0 < n)%Z then Fulfilled (take (Z.to_nat n) l)
      else Rejected invalid_limit
  end.

(** Modelled from the spec: [getDocs] of the SDK, which executes a query
    and returns the ordered sequence of raw documents. *)
Definition getDocs (contents : string -> list Doc) (q : Query)
  : Outcome (list Doc) :=
  let cs := q_constraints q in
  match resume (cursor_clause cs) (matching contents q) with
  | Rejected e => Rejected e
  | Fulfilled l => bound (limit_clause cs) l
  end.

(** *** Standing queries *)

(** The store: its collections, the registered standing queries, each
    under the handle its cancellation function closes over, and the
    next unused handle. *)
Record State : Type := mkState {
  contents : string -> list Doc;
  listeners : list (nat * (Query * Listener));
  next_handle : nat;
}.

(** A callback invocation, with the handle of the standing query whose
    listener made it. *)
Definition Delivery : Type := nat * Invocation.

(** Modelled from the spec: [onSnapshot(q, listener)] of the SDK.  It
    registers the standing query, hands the current result to the listener
    and returns the handle of the new registration.  A query the store
    rejects registers nothing. *)
Definition onSnapshot (q : Query) (l : Listener) (s : State)
  : Outcome nat * State * list Delivery :=
  match getDocs (contents s) q with
  | Rejected e => (Rejected e, s, [])
  | Fulfilled docs =>
      let h := next_handle s in
      (Fulfilled h,
       mkState (contents s) (listeners s ++ [(h, (q, l))]) (S h),
       pair h <$> l docs)
  end.

(** Modelled from the spec: calling the cancellation function that
    [onSnapshot] returned for handle [h] unregisters the standing query. *)
Definition unsubscribe (h : nat) (s : State) : State :=
  mkState (contents s) (filter (fun e => e.1 <> h) (listeners s))
    (next_handle s).

Definition set_collection (c : string) (docs : list Doc)
    (f : string -> list Doc) : string -> list Doc :=
  fun c' => if decide (c' = c) then docs else f c'.

(** A standing query whose result changed hands the new result to its
    listener. *)
Definition notify (old new : string -> list Doc)
    (e : nat * (Query * Listener)) : list Delivery :=
  match getDocs new e.2.1 with
  | Fulfilled docs =>
      if decide (getDocs old e.2.1 = Fulfilled docs) then []
      else pair e.1 <$> e.2.2 docs
  | Rejected _ => []
  end.

(** A write: the documents of collection [c] become [docs]. *)
Definition commit (c : string) (docs : list Doc) (s : State)
  : State * list Delivery :=
  let new := set_collection c docs (contents s) in
  (mkState new (listeners s) (next_handle s),
   concat (notify (contents s) new <$> listeners s)).

(** What happens to a store: some caller registers a standing query,
    some caller invokes a cancellation function, the data changes. *)
Inductive Action : Type :=
| Listen (q : Query) (l : Listener)
| Cancel (h : nat)
| Commit (c : string) (docs : list Doc).

Definition step (s : State) (a : Action) : State * list Delivery :=
  match a with
  | Listen q l => let '(_, s', ds) := onSnapshot q l s in (s', ds)
  | Cancel h => (unsubscribe h s, [])
  | Commit c docs => commit c docs s
  end.

Fixpoint exec (s : State) (acts : list Action) : State * list Delivery :=
  match acts with
  | [] => (s, [])
  | a :: acts' =>
      let '(s1, d1) := step s a in
      let '(s2, d2) := exec s1 acts' in
      (s2, d1 ++ d2)
  end.

(** A store that holds the given collections and no standing query. *)
Definition init (contents : string -> list Doc) : State :=
  mkState contents [] 0.

(** The store after a sequence of actions, and the callback invocations
    made on the way. *)
Definition state_after (s : State) (acts : list Action) : State :=
  (exec s acts).1.

Definition deliveries (s : State) (acts : list Action) : list Delivery :=
  (exec s acts).2.

(** Handles are issued in increasing order. *)
Definition issued_before (s : State) : Prop :=
  Forall (fun e => e.1 < next_handle s) (listeners s).

(** No listener of the store is registered under [h], and [h] will not be
    issued again. *)
Definition silent (h : nat) (s : State) : Prop :=
  h < next_handle s /\ Forall (fun e => e.1 <> h) (listeners s).

(** [sa] is [sb] without the standing queries of handle [h]. *)
Definition without (h : nat) (sa sb : State) : Prop :=
  contents sa = contents sb
  /\ next_handle sa = next_handle sb
  /\ listeners sa = filter (fun e => e.1 <> h) (listeners sb)
  /\ h < next_handle sb.

End Store.

(** ** Walking the pages

    The client loop of the chaining property: call [getPostsWithOptions],
    feed [lastDoc] of each result into the next call, stop at the first
    result with [hasMore = false].  [None] when a call is rejected or the
    fuel runs out. *)
Fixpoint fetchAllPages (getDocs : Query -> Outcome (list Doc)) (fuel : nat)
    (category : option Category) (pageSize : Z) (cursor : option Doc)
  : option (list (list JsObject)) :=
  match fuel with
  | O => None
  | S fuel' =>
      let options := PostsCopy1.mkOptions category (Some pageSize) cursor in
      match (run getDocs (PostsCopy1.getPostsWithOptions options)).1 with
      | Rejected _ => None
      | Fulfilled r =>
          if PostsCopy1.hasMore r
          then cons (PostsCopy1.posts r) <$>
                 fetchAllPages getDocs fuel' category pageSize
                   (PostsCopy1.lastDoc r)
          else Some [PostsCopy1.posts r]
      end
  end.

(** ** What the properties speak of *)

(** The fields of [PostSummary] in the data model. *)
Definition PostSummary_fields : list string :=
  [ "id"; "title"; "category"; "createdAt"; "authorId"; "authorEmail";
    "authorDisplayName"; "viewCount"; "thumbnailUrl" ].

(** The fields a list item has. *)
Definition ListItem_fields : list string :=
  [ "id"; "title"; "category"; "authorEmail"; "authorDisplayName";
    "createdAt" ].

(** The field [f] of the raw document: [id] is the document's identifier,
    every other field is read from its data. *)
Definition raw_field (d : Doc) (f : string) : JsValue :=
  if decide (f = "id") then JString (doc_id d) else prop (doc_data d) f.

(** [item] carries the fields [fs] of the raw document [d]. *)
Definition carries (fs : list string) (item : JsObject) (d : Doc) : Prop :=
  Forall (fun f => prop item f = raw_field d f) fs.

#[global] Instance carries_dec fs item d : Decision (carries fs item d).
Proof. unfold carries. apply _. Defined.

(** The constraint an optional category stands for. *)
Definition category_filter (category : option Category)
  : list QueryConstraint :=
  match category with
  | Some c => [where_eq "category" (JString (tag c))]
  | None => []
  end.

(** The constraint an optional cursor stands for. *)
Definition cursor_constraint (cursor : option Doc) : list QueryConstraint :=
  match cursor with
  | Some d => [startAfter d]
  | None => []
  end.

(** The filter an optional category puts on a listing. *)
Definition category_clauses (category : option Category)
  : list (string * JsValue) :=
  match category with
  | Some c => [("category", JString (tag c))]
  | None => []
  end.

(** The matching documents of the post collection: those of the given
    category, if any, that have a creation timestamp. *)
Definition is_matching (category : option Category) (d : Doc) : Prop :=
  Store.satisfies (category_clauses category) d
  /\ is_Some (Store.sort_key "createdAt" d).

#[global] Instance is_matching_dec category d :
  Decision (is_matching category d).
Proof. unfold is_matching. apply _. Defined.

(** The listing the store keeps for a category: the matching documents,
    newest first. *)
Definition listing (contents : string -> list Doc)
    (category : option Category) : list Doc :=
  Store.matching contents
    (query "posts" (category_filter category ++ [orderBy "createdAt" desc])).

(** The current result of a standing query: the newest [limitCount]
    documents of the listing. *)
Definition currentResult (contents : string -> list Doc)
    (options : PostsCopy1.SubscribeOptions) : list Doc :=
  take (Z.to_nat (PostsCopy1.subLimitCountOf options))
    (listing contents (PostsCopy1.sub_category options)).

(** [d1] was created no earlier than [d2]. *)
Definition not_older (d1 d2 : Doc) : Prop :=
  exists k1 k2,
    Store.sort_key "createdAt" d1 = Some k1
    /\ Store.sort_key "createdAt" d2 = Some k2
    /\ (k2 <= k1)%Z.

(** ** Sample data *)

Definition tech : Category := mkCategory "tech" eq_refl.
Definition life : Category := mkCategory "life" eq_refl.

Definition sample_post (i c : string) (seconds : Z) : Doc :=
  mkDoc i
    (list_to_map
       [ ("title", JString ("Post " +:+ i));
         ("category", JString c);
         ("createdAt", JTimestamp seconds 0);
         ("authorId", JString "u1");
         ("authorEmail", JString "u1@example.org");
         ("authorDisplayName", JNull);
         ("viewCount", JNumber 0);
         ("thumbnailUrl", JNull) ]).

Definition sample_doc : Doc := sample_post "d" "tech" 7.

Definition sample_posts : list Doc :=
  [ sample_post "a" "tech" 1; sample_post "b" "life" 5;
    sample_post "c" "tech" 3; sample_doc;
    sample_post "e" "life" 2; sample_post "f" "tech" 6;
    sample_post "g" "tech" 4 ].

Definition sample_contents : string -> list Doc :=
  fun c => if decide (c = POSTS_COLLECTION) then sample_posts else [].

Definition empty_contents : string -> list Doc := fun _ => [].

(** A store that answers every query with the one sample document. *)
Definition one_doc_store : Query -> Outcome (list Doc) :=
  fun _ => Fulfilled [sample_doc].

Definition sample_store : Store.State := Store.init sample_contents.

(** An empty store with one subscription, of page size 2, under handle 0. *)
Definition sample_subscribed : Store.State :=
  Store.mkState empty_contents
    [(0, (PostsCopy1.standingQuery
            (PostsCopy1.mkSubscribeOptions None (Some 2%Z)),
          PostsCopy1.snapshotListener "render"))]
    1.

(** ** More of JavaScript *)

From stdpp Require Import pretty.

(** Truthiness of a value: [undefined], [null], [false], [0] and the empty
    string are falsy, objects are truthy. *)
Definition truthy (v : JsValue) : bool :=
  match v with
  | JUndefined | JNull => false
  | JBool b => b
  | JNumber n => negb (n =? 0)%Z
  | JString s => truthy_string s
  | JTimestamp _ _ => true
  end.

(** [a || b]. *)
Definition js_or (a b : JsValue) : JsValue := if truthy a then a else b.

(** [String(v)], as in a template literal or a property key.  A Firestore
    [Timestamp] prints its two fields. *)
Definition to_string (v : JsValue) : string :=
  match v with
  | JUndefined => "undefined"
  | JNull => "null"
  | JBool true => "true"
  | JBool false => "false"
  | JNumber n => pretty n
  | JString s => s
  | JTimestamp s n =>
      "Timestamp(seconds=" +:+ pretty s +:+ ", nanoseconds=" +:+ pretty n
      +:+ ")"
  end.

(** [{ ...target, ...source }]: the properties of [source] are copied over
    those of [target]. *)
Definition spread {V : Type} (target source : gmap string V)
  : gmap string V :=
  source ∪ target.

(** [{ ...o, k1: v1, ..., kn: vn }]: the properties are set in the order
    they are written, a later one replacing an earlier one of its name. *)
Definition assign {V : Type} (o : gmap string V) (props : list (string * V))
  : gmap string V :=
  foldl (fun acc kv => <[kv.1 := kv.2]> acc) o props.

(** [s.split(sep)] for a separator of one character: the pieces between
    the occurrences of [sep], at least one piece. *)
Fixpoint split (sep : Ascii.ascii) (s : string) : list string :=
  match s with
  | EmptyString => [EmptyString]
  | String c rest =>
      if Ascii.eqb c sep then EmptyString :: split sep rest
      else
        match split sep rest with
        | piece :: pieces => String c piece :: pieces
        | [] => [String c EmptyString]
        end
  end.

(** Whether the character [c] occurs in [s]. *)
Fixpoint occurs (c : Ascii.ascii) (s : string) : bool :=
  match s with
  | EmptyString => false
  | String a rest => Ascii.eqb a c || occurs c rest
  end.

(** The character "@". *)
Definition at_sign : Ascii.ascii :=
  Ascii.Ascii false false false false false false true false.

(** How an expression completes: with a value, or by throwing a
    [TypeError] on the value a method was called on. *)
Inductive Completion (A : Type) : Type :=
| Normal (a : A)
| ThrowTypeError (receiver : JsValue).

Arguments Normal {A} a.
Arguments ThrowTypeError {A} receiver.

(** ** Single documents

    The requests of the other functions of the two files: [getDoc],
    [addDoc], [updateDoc] and [deleteDoc] of the SDK. *)

(** [doc(db, collection, id)]. *)
Record DocumentReference : Type := doc {
  ref_collection : string;
  ref_id : string;
}.

(** What [getDoc] resolves to: [exists()] is false and [data()] is
    [undefined] for a document that is not there. *)
Record DocumentSnapshot : Type := mkSnapshot {
  snap_id : string;
  snap_data : option JsObject;
}.

Definition snap_exists (docSnap : DocumentSnapshot) : bool :=
  match snap_data docSnap with
  | Some _ => true
  | None => false
  end.

(** [docSnap as unknown as QueryDocumentSnapshot]: the same object; its
    [data()] spreads as no property when it is [undefined]. *)
Definition as_query_snapshot (docSnap : DocumentSnapshot) : Doc :=
  mkDoc (snap_id docSnap)
    (match snap_data docSnap with Some data => data | None => ∅ end).

(** A value to write: a plain value, or the sentinel [serverTimestamp()]
    that the server replaces by its clock. *)
Inductive FieldValue : Type :=
| Plain (v : JsValue)
| ServerTimestamp.

Abbreviation WriteData := (gmap string FieldValue).

(** The requests a call makes, for the record of a run. *)
Inductive Request : Type :=
| ReqGetDoc (ref : DocumentReference)
| ReqAddDoc (collection : string) (data : WriteData)
| ReqUpdateDoc (ref : DocumentReference) (data : WriteData)
| ReqDeleteDoc (ref : DocumentReference).

(** An [async] function on single documents: the tree of its requests.
    [AwaitAddDoc c data k] is [const docRef = await addDoc(c, data)]
    followed by [k docRef], and so on; none of the functions has a [try]. *)
Inductive Op (A : Type) : Type :=
| Done (a : A)
| AwaitGetDoc (ref : DocumentReference) (k : DocumentSnapshot -> Op A)
| AwaitAddDoc (collection : string) (data : WriteData)
    (k : DocumentReference -> Op A)
| AwaitUpdateDoc (ref : DocumentReference) (data : WriteData) (k : Op A)
| AwaitDeleteDoc (ref : DocumentReference) (k : Op A).

Arguments Done {A} a.
Arguments AwaitGetDoc {A} ref k.
Arguments AwaitAddDoc {A} collection data k.
Arguments AwaitUpdateDoc {A} ref data k.
Arguments AwaitDeleteDoc {A} ref k.

(** What a store answers to each request. *)
Record Sdk : Type := mkSdk {
  sdk_getDoc : DocumentReference -> Outcome DocumentSnapshot;
  sdk_addDoc : string -> WriteData -> Outcome DocumentReference;
  sdk_updateDoc : DocumentReference -> WriteData -> Outcome unit;
  sdk_deleteDoc : DocumentReference -> Outcome unit;
}.

(** [runOp sdk op]: the outcome of [op] against a store that answers as
    [sdk], and the requests made, in order. *)
Fixpoint runOp {A : Type} (sdk : Sdk) (op : Op A)
  : Outcome A * list Request :=
  match op with
  | Done a => (Fulfilled a, [])
  | AwaitGetDoc ref k =>
      match sdk_getDoc sdk ref with
      | Rejected e => (Rejected e, [ReqGetDoc ref])
      | Fulfilled docSnap =>
          let '(r, made) := runOp sdk (k docSnap) in
          (r, ReqGetDoc ref :: made)
      end
  | AwaitAddDoc c data k =>
      match sdk_addDoc sdk c data with
      | Rejected e => (Rejected e, [ReqAddDoc c data])
      | Fulfilled docRef =>
          let '(r, made) := runOp sdk (k docRef) in
          (r, ReqAddDoc c data :: made)
      end
  | AwaitUpdateDoc ref data k =>
      match sdk_updateDoc sdk ref data with
      | Rejected e => (Rejected e, [ReqUpdateDoc ref data])
      | Fulfilled _ =>
          let '(r, made) := runOp sdk k in
          (r, ReqUpdateDoc ref data :: made)
      end
  | AwaitDeleteDoc ref k =>
      match sdk_deleteDoc sdk ref with
      | Rejected e => (Rejected e, [ReqDeleteDoc ref])
      | Fulfilled _ =>
          let '(r, made) := runOp sdk k in
          (r, ReqDeleteDoc ref :: made)
      end
  end.

(** The [User] of [@/types] is not among the sources; the functions read
    [uid], [email], [displayName] and [photoURL] of it, each taken here as
    any value. *)
Record User : Type := mkUser {
  uid : JsValue;
  email : JsValue;
  displayName : JsValue;
  photoURL : JsValue;
}.

(** *** src/lib/posts.ts, the other functions *)

Module PostsCrud.

(** [{ id: docSnapshot.id, ...data }]. *)
Definition formatPost (docSnapshot : Doc) : JsObject :=
  let data := doc_data docSnapshot in
  spread (assign ∅ [("id", JString (doc_id docSnapshot))]) data.

Definition getPost (id : string) : Op (option JsObject) :=
  let docRef := doc POSTS_COLLECTION id in
  AwaitGetDoc docRef (fun docSnap =>
    if snap_exists docSnap
    then Done (Some (formatPost (as_query_snapshot docSnap)))
    else Done None).

(** The object literal [newPost] of [createPost]. *)
Definition newPost (postInput : JsObject) (user : User) : WriteData :=
  assign (spread ∅ (Plain <$> postInput))
    [ ("authorId", Plain (uid user));
      ("authorEmail", Plain (email user));
      ("authorDisplayName", Plain (js_or (displayName user) JNull));
      ("authorPhotoURL", Plain (js_or (photoURL user) JNull));
      ("createdAt", ServerTimestamp);
      ("updatedAt", ServerTimestamp);
      ("viewCount", Plain (JNumber 0));
      ("thumbnailUrl", Plain JNull) ].

Definition createPost (postInput : JsObject) (user : User) : Op string :=
  AwaitAddDoc POSTS_COLLECTION (newPost postInput user)
    (fun docRef => Done (ref_id docRef)).

Definition updatePost (id : string) (postInput : JsObject) : Op unit :=
  let docRef := doc POSTS_COLLECTION id in
  AwaitUpdateDoc docRef
    (assign (spread ∅ (Plain <$> postInput)) [("updatedAt", ServerTimestamp)])
    (Done tt).

Definition deletePost (id : string) : Op unit :=
  let docRef := doc POSTS_COLLECTION id in
  AwaitDeleteDoc docRef (Done tt).

End PostsCrud.

(** *** src/lib/posts copy 1.ts, the other functions *)

Module PostsCopy1Crud.

(** [{ id: docSnapshot.id, ...data }]. *)
Definition formatPost (docSnapshot : Doc) : JsObject :=
  let data := doc_data docSnapshot in
  spread (assign ∅ [("id", JString (doc_id docSnapshot))]) data.

Definition getPost (id : string) : Op (option JsObject) :=
  let docRef := doc POSTS_COLLECTION id in
  AwaitGetDoc docRef (fun docSnap =>
    if negb (snap_exists docSnap) then Done None
    else Done (Some (formatPost (as_query_snapshot docSnap)))).

(** The object literal [newPost] of [createPost]. *)
Definition newPost (postInput : JsObject) (user : User) : WriteData :=
  assign (spread ∅ (Plain <$> postInput))
    [ ("authorId", Plain (uid user));
      ("authorEmail", Plain (email user));
      ("authorDisplayName", Plain (js_or (displayName user) JNull));
      ("authorPhotoURL", Plain (js_or (photoURL user) JNull));
      ("createdAt", ServerTimestamp);
      ("updatedAt", ServerTimestamp);
      ("viewCount", Plain (JNumber 0));
      ("thumbnailUrl", Plain JNull) ].

Definition createPost (postInput : JsObject) (user : User) : Op string :=
  AwaitAddDoc PostsCopy1.postsCollection (newPost postInput user)
    (fun docRef => Done (ref_id docRef)).

Definition updatePost (id : string) (postInput : JsObject) : Op unit :=
  let docRef := doc POSTS_COLLECTION id in
  AwaitUpdateDoc docRef
    (assign (spread ∅ (Plain <$> postInput)) [("updatedAt", ServerTimestamp)])
    (Done tt).

Definition deletePost (id : string) : Op unit :=
  let docRef := doc POSTS_COLLECTION id in
  AwaitDeleteDoc docRef (Done tt).

End PostsCopy1Crud.

(** The fields [createPost] sets itself. *)
Definition created_fields : list string :=
  [ "authorId"; "authorEmail"; "authorDisplayName"; "authorPhotoURL";
    "createdAt"; "updatedAt"; "viewCount"; "thumbnailUrl" ].

(** The document [d] holds field [k] as [w] wrote it. *)
Definition stored_as_written (w : WriteData) (d : Doc) (k : string) : Prop :=
  Plain <$> doc_data d !! k = w !! k.

(** *** The post card (second component of src/unnamed/part_000) *)

(** What a component returns: text, an expression in braces, or an
    element with its attributes and children.  The class names, which are
    constant, are left out. *)
#[local] Unset Elimination Schemes.
Inductive Node : Type :=
| Text (s : string)
| Value (v : JsValue)
| Element (tag : string) (attrs : list (string * string))
    (children : list Node).
#[local] Set Elimination Schemes.

Module PostCard.

(** [timestamp.toDate().toLocaleDateString("ko-KR", ...)]: only a
    [Timestamp] has [toDate]; the text of a date is the platform's, the
    parameter [localeDate]. *)
Definition formatDate (localeDate : Z -> Z -> string) (timestamp : JsValue)
  : Completion string :=
  match timestamp with
  | JTimestamp seconds nanoseconds => Normal (localeDate seconds nanoseconds)
  | _ => ThrowTypeError timestamp
  end.

(** [getAuthorName]: the display name when it is truthy, else the part of
    the e-mail address before the first "@"; only a string has [split]. *)
Definition getAuthorName (post : JsObject) : Completion JsValue :=
  if truthy (prop post "authorDisplayName")
  then Normal (prop post "authorDisplayName")
  else
    match prop post "authorEmail" with
    | JString address =>
        Normal (match split at_sign address !! 0 with
                | Some piece => JString piece
                | None => JUndefined
                end)
    | v => ThrowTypeError v
    end.

(** [post.category && <span>{CATEGORY_LABELS[post.category]}</span>];
    the table [CATEGORY_LABELS] of [@/types] is a parameter. *)
Definition categoryTag (CATEGORY_LABELS : JsObject) (post : JsObject)
  : Node :=
  if truthy (prop post "category")
  then Element "span" []
         [Value (prop CATEGORY_LABELS (to_string (prop post "category")))]
  else Value (prop post "category").

(** The component: its parts are evaluated in the order they are written,
    the author before the date. *)
Definition PostCard (CATEGORY_LABELS : JsObject)
    (localeDate : Z -> Z -> string) (post : JsObject) : Completion Node :=
  let to := "/posts/" +:+ to_string (prop post "id") in
  let tag := categoryTag CATEGORY_LABELS post in
  let title := Element "h2" [] [Value (prop post "title")] in
  match getAuthorName post with
  | ThrowTypeError v => ThrowTypeError v
  | Normal author =>
      match formatDate localeDate (prop post "createdAt") with
      | ThrowTypeError v => ThrowTypeError v
      | Normal date =>
          Normal
            (Element "article" []
               [Element "Link" [("to", to)]
                  [tag; title;
                   Element "div" []
                     [Element "span" [] [Value author];
                      Element "span" [] [Text "·"];
                      Element "span" [] [Text date]]]])
      end
  end.

End PostCard.

(** A document whose data has a field named [id]. *)
Definition shadowing_doc : Doc :=
  mkDoc "d" (list_to_map [("id", JString "other"); ("title", JString "T")]).

(** An input that tries to set fields of its own. *)
Definition forged_input : JsObject :=
  list_to_map
    [ ("title", JString "T"); ("authorId", JString "someone else");
      ("viewCount", JNumber 1000) ].

(** A user without display name. *)
Definition sample_user : User :=
  mkUser (JString "u1") (JString "ann@example.org") JNull JNull.

(** A user with neither display name nor e-mail address. *)
Definition anonymous_user : User :=
  mkUser (JString "u2") JNull JNull JNull.

(** What the store holds of a post that [anonymous_user] created. *)
Definition anonymous_post : Doc :=
  mkDoc "p"
    (list_to_map
       [ ("title", JString "T"); ("authorId", JString "u2");
         ("authorEmail", JNull); ("authorDisplayName", JNull);
         ("createdAt", JTimestamp 9 0) ]).

(** A store of one document, which accepts every write. *)
Definition sample_sdk : Sdk :=
  mkSdk
    (fun ref =>
       Fulfilled
         (mkSnapshot (ref_id ref)
            (if decide (ref_id ref = "d") then Some (doc_data sample_doc)
             else None)))
    (fun c _ => Fulfilled (doc c "new"))
    (fun _ _ => Fulfilled tt)
    (fun _ => Fulfilled tt).

(** A store that is out of reach. *)
Definition unavailable : FirestoreError :=
  mkError "unavailable" "the service is currently unavailable".

Definition failing_sdk : Sdk :=
  mkSdk (fun _ => Rejected unavailable) (fun _ _ => Rejected unavailable)
    (fun _ _ => Rejected unavailable) (fun _ => Rejected unavailable).

Definition sample_localeDate : Z -> Z -> string :=
  fun seconds _ => pretty seconds.

(** ** The argument check of [limit]

    [limit] of the SDK is not among the sources.  It checks its argument
    when the constraint is built, at line 179 of [getPostsWithOptions],
    before [query] and [getDocs] are reached at lines 182 and 183: when
    [limit] throws, the [async] function is rejected and no query has been
    issued.  The check is a parameter: [None] when [limit(n)] returns its
    constraint, the error it throws otherwise.  [pageQuery] and
    [getPostsWithOptions] above are the function from the point where the
    constraints are built. *)
Definition callGetPostsWithOptions (limitCheck : Z -> option FirestoreError)
    (getDocs : Query -> Outcome (list Doc))
    (options : PostsCopy1.GetPostsOptions)
  : Outcome PostsCopy1.GetPostsResult * list Query :=
  match limitCheck (PostsCopy1.limitCountOf options + 1)%Z with
  | Some e => (Rejected e, [])
  | None => run getDocs (PostsCopy1.getPostsWithOptions options)
  end.

(** Modelled from the spec: the check that [limit] of the SDK makes.  A
    bound that is not positive is a malformed input (section 7), which the
    client refuses as a query-construction error (section 4.1): [limit]
    throws unless its argument is positive. *)
Definition sdk_limitCheck (n : Z) : option FirestoreError :=
  if bool_decide (0 < n)%Z then None else Some Store.invalid_limit.

(** A store that rejects every query. *)
Definition rejecting_store : Query -> Outcome (list Doc) :=
  fun _ => Rejected unavailable.

(** * Properties *)

Import PostsCopy1.

(** ** Arrays *)

Lemma slice_prefix {A : Type} (l : list A) (n : Z) :
  (0 <= n)%Z -> slice l 0 n = take (Z.to_nat n) l.
Proof.
  intros Hn. unfold slice, rel_index.
  assert (Hn' : (n <? 0)%Z = false) by (apply Z.ltb_ge; lia).
  rewrite Hn'. simpl (0 <? 0)%Z. cbv iota.
  rewrite (Z.min_l 0) by lia. rewrite Z.sub_0_r.
  change (Z.to_nat 0) with 0%nat. rewrite drop_0.
  destruct (decide (n <= Z.of_nat (length l))%Z) as [Hle|Hgt].
  - by rewrite Z.min_l by lia.
  - rewrite Z.min_r by lia. rewrite Nat2Z.id.
    rewrite !take_ge; [done | lia | lia].
Qed.

Lemma last_or_null_last {A : Type} (l : list A) : last_or_null l = last l.
Proof.
  unfold last_or_null, length_gt. rewrite last_lookup.
  case_bool_decide as H;
    [by replace (length l - 1) with (pred (length l)) by lia|].
  destruct l; [done | simpl in H; lia].
Qed.

Section Filter.
Context {A : Type} (P : A -> Prop) `{!forall x, Decision (P x)}.

Lemma filter_keeps_Forall (Q : A -> Prop) (l : list A) :
  Forall Q l -> Forall Q (filter P l).
Proof.
  rewrite !Forall_forall. intros HQ x Hx.
  apply list_elem_of_filter in Hx as [_ Hx]. by apply HQ.
Qed.

Lemma filter_satisfied (l : list A) : Forall P (filter P l).
Proof.
  apply Forall_forall. intros x Hx.
  by apply list_elem_of_filter in Hx as [Hx _].
Qed.

Lemma filter_all (l : list A) : Forall P l -> filter P l = l.
Proof.
  induction 1 as [|x l Hx Hl IH]; [done|].
  by rewrite filter_cons_True, IH.
Qed.

Lemma filter_none (l : list A) :
  Forall (fun x => ~ P x) l -> filter P l = [].
Proof.
  induction 1 as [|x l Hx Hl IH]; [done|].
  by rewrite filter_cons_False.
Qed.

End Filter.

(** ** The page made of a snapshot *)

Lemma pageOf_hasMore limitCount docs :
  hasMore (pageOf limitCount docs)
  = bool_decide (limitCount < Z.of_nat (length docs))%Z.
Proof. reflexivity. Qed.

Lemma pageOf_posts limitCount docs :
  (0 <= limitCount)%Z ->
  posts (pageOf limitCount docs)
  = toListItem <$>
      (if hasMore (pageOf limitCount docs)
       then take (Z.to_nat limitCount) docs else docs).
Proof.
  intros Hn. cbn [pageOf posts hasMore].
  destruct (length_gt docs limitCount); [|done].
  by rewrite slice_prefix.
Qed.

Lemma pageOf_length limitCount docs :
  (0 <= limitCount)%Z ->
  length (posts (pageOf limitCount docs)) <= Z.to_nat limitCount.
Proof.
  intros Hn. rewrite pageOf_posts by done. rewrite length_fmap.
  rewrite pageOf_hasMore. case_bool_decide as H.
  - rewrite length_take. lia.
  - lia.
Qed.

Lemma pageOf_lastDoc limitCount docs :
  exists returned,
    posts (pageOf limitCount docs) = toListItem <$> returned
    /\ lastDoc (pageOf limitCount docs) = last returned
    /\ returned ⊆ docs.
Proof.
  cbn [pageOf posts lastDoc].
  eexists. split; [reflexivity|]. split; [apply last_or_null_last|].
  destruct (length_gt docs limitCount); [|done].
  unfold slice. intros x Hx. apply subseteq_take in Hx.
  by apply subseteq_drop in Hx.
Qed.

Lemma pageOf_empty limitCount :
  (0 <= limitCount)%Z -> pageOf limitCount [] = mkResult [] None false.
Proof.
  intros Hn. unfold pageOf, length_gt. cbn [length].
  rewrite bool_decide_eq_false_2 by lia. reflexivity.
Qed.

Lemma pageOf_zero docs :
  docs <> [] -> pageOf 0 docs = mkResult [] None true.
Proof.
  intros Hne. unfold pageOf, length_gt.
  rewrite bool_decide_eq_true_2 by (destruct docs; [done | simpl; lia]).
  by rewrite slice_prefix.
Qed.

(** Over-fetching by one: the page made of the first [pageSize + 1]
    remaining documents says there is more exactly when documents remain
    beyond it. *)
Lemma pageOf_overfetch (pageSize : Z) (rest : list Doc) :
  (0 <= pageSize)%Z ->
  pageOf pageSize (take (Z.to_nat (pageSize + 1)) rest)
  = if decide (length rest <= Z.to_nat pageSize)
    then mkResult (toListItem <$> rest) (last rest) false
    else mkResult (toListItem <$> take (Z.to_nat pageSize) rest)
           (last (take (Z.to_nat pageSize) rest)) true.
Proof.
  intros Hn. unfold pageOf. rewrite last_or_null_last.
  unfold length_gt. rewrite length_take.
  destruct (decide (length rest <= Z.to_nat pageSize)) as [Hle|Hgt].
  - rewrite bool_decide_eq_false_2 by lia.
    by rewrite take_ge by lia.
  - rewrite bool_decide_eq_true_2 by lia.
    rewrite slice_prefix by done. rewrite take_take.
    by replace (Z.to_nat pageSize `min` Z.to_nat (pageSize + 1))
      with (Z.to_nat pageSize) by lia.
Qed.

Lemma run_getPostsWithOptions getDocs options :
  run getDocs (getPostsWithOptions options)
  = match getDocs (pageQuery options) with
    | Fulfilled docs =>
        (Fulfilled (pageOf (limitCountOf options) docs), [pageQuery options])
    | Rejected e => (Rejected e, [pageQuery options])
    end.
Proof. cbn [getPostsWithOptions run]. by destruct (getDocs _). Qed.

(** C1. A call with page size at least 1 whose query the store answers
    with [docs] is fulfilled with a page whose [hasMore] says whether the
    store returned more than [pageSize] documents, whose items are the
    first [pageSize] returned documents when [hasMore] holds and all of
    them otherwise, and which has at most [pageSize] items. *)
Theorem getPostsWithOptions_page
    (getDocs : Query -> Outcome (list Doc)) (options : GetPostsOptions)
    (docs : list Doc) :
  (1 <= limitCountOf options)%Z ->
  getDocs (pageQuery options) = Fulfilled docs ->
  exists r,
    (run getDocs (getPostsWithOptions options)).1 = Fulfilled r
    /\ hasMore r
       = bool_decide (limitCountOf options < Z.of_nat (length docs))%Z
    /\ posts r
       = toListItem <$>
           (if hasMore r
            then take (Z.to_nat (limitCountOf options)) docs else docs)
    /\ length (posts r) <= Z.to_nat (limitCountOf options).
Proof.
  intros Hsize Hdocs.
  exists (pageOf (limitCountOf options) docs).
  rewrite run_getPostsWithOptions, Hdocs. cbn [fst].
  split; [done|]. split; [apply pageOf_hasMore|].
  split; [apply pageOf_posts | apply pageOf_length]; lia.
Qed.

Lemma getPostsWithOptions_page_witness :
  exists r,
    (run (Store.getDocs sample_contents)
       (getPostsWithOptions (mkOptions (Some tech) (Some 3%Z) None))).1
    = Fulfilled r
    /\ hasMore r = true
    /\ posts r
       = toListItem <$>
           [sample_doc; sample_post "f" "tech" 6; sample_post "g" "tech" 4]
    /\ length (posts r) <= 3.
Proof.
  destruct (getPostsWithOptions_page (Store.getDocs sample_contents)
              (mkOptions (Some tech) (Some 3%Z) None)
              [sample_doc; sample_post "f" "tech" 6;
               sample_post "g" "tech" 4; sample_post "c" "tech" 3])
    as (r & Hr & Hmore & Hposts & Hlen).
  - unfold limitCountOf. cbn. lia.
  - vm_compute. reflexivity.
  - exists r. split; [exact Hr|].
    assert (Hm : hasMore r = true) by (rewrite Hmore; reflexivity).
    split; [exact Hm|]. split; [|exact Hlen].
    rewrite Hposts, Hm. reflexivity.
Defined.

(** ** The query of a page *)

Lemma push_category_filter constraints category :
  push_category constraints category
  = constraints ++ category_filter category.
Proof.
  destruct category as [c|]; cbn [push_category category_filter].
  - by rewrite (tag_truthy c).
  - by rewrite app_nil_r.
Qed.

Lemma push_cursor_constraint constraints cursor :
  push_cursor constraints cursor = constraints ++ cursor_constraint cursor.
Proof. destruct cursor; [done | by rewrite app_nil_r]. Qed.

Lemma pageQuery_constraints options :
  pageQuery options
  = query "posts"
      (category_filter (opt_category options)
       ++ [orderBy "createdAt" desc]
       ++ cursor_constraint (opt_lastDoc options)
       ++ [limit (limitCountOf options + 1)]).
Proof.
  unfold pageQuery, push, postsCollection, POSTS_COLLECTION.
  rewrite push_cursor_constraint, push_category_filter.
  by rewrite app_nil_l, <- !app_assoc.
Qed.

Lemma callGetPostsWithOptions_accepted getDocs options :
  (0 <= limitCountOf options)%Z ->
  callGetPostsWithOptions sdk_limitCheck getDocs options
  = run getDocs (getPostsWithOptions options).
Proof.
  intros Hn. unfold callGetPostsWithOptions, sdk_limitCheck.
  by rewrite bool_decide_eq_true_2 by lia.
Qed.

Lemma callGetPostsWithOptions_refused getDocs options :
  (limitCountOf options < 0)%Z ->
  callGetPostsWithOptions sdk_limitCheck getDocs options
  = (Rejected Store.invalid_limit, []).
Proof.
  intros Hn. unfold callGetPostsWithOptions, sdk_limitCheck.
  by rewrite bool_decide_eq_false_2 by lia.
Qed.

(** Counterexample to C5 as stated: with page size -1 the call builds the
    constraint [limit(0)], which throws; the call is rejected and no query
    is issued, although the store would answer any query. *)
Lemma negative_pageSize_issues_no_query :
  callGetPostsWithOptions sdk_limitCheck one_doc_store
    (mkOptions None (Some (-1)%Z) None)
  = (Rejected Store.invalid_limit, [])
  /\ run one_doc_store (getPostsWithOptions (mkOptions None (Some 5%Z) None))
     = (Fulfilled (mkResult [toListItem sample_doc] (Some sample_doc) false),
        [query "posts" [orderBy "createdAt" desc; limit 6]]).
Proof. split; reflexivity. Qed.

(** C5, amended.  For every options value whose page size is at least 0,
    so that [limit] accepts [pageSize + 1], and whatever the store
    answers, the call issues exactly one query, over the post collection,
    whose constraints are in this order: the equality filter on [category]
    exactly when a category is given, the descending sort on [createdAt],
    the resume-after constraint exactly when a cursor is given, and the
    bound [pageSize + 1], with [pageSize] 5 when unspecified. *)
Theorem getPostsWithOptions_issues_one_query
    (getDocs : Query -> Outcome (list Doc)) (options : GetPostsOptions) :
  (0 <= limitCountOf options)%Z ->
  (callGetPostsWithOptions sdk_limitCheck getDocs options).2
  = [ query "posts"
        (category_filter (opt_category options)
         ++ [orderBy "createdAt" desc]
         ++ cursor_constraint (opt_lastDoc options)
         ++ [limit (limitCountOf options + 1)]) ]
  /\ limitCountOf options
     = match opt_limitCount options with Some n => n | None => 5%Z end.
Proof.
  intros Hn. split; [|reflexivity].
  rewrite callGetPostsWithOptions_accepted by done.
  rewrite run_getPostsWithOptions, pageQuery_constraints.
  by destruct (getDocs _).
Qed.

Lemma getPostsWithOptions_issues_one_query_witness :
  (callGetPostsWithOptions sdk_limitCheck one_doc_store
     (mkOptions (Some tech) None (Some sample_doc))).2
  = [ query "posts"
        [where_eq "category" (JString "tech"); orderBy "createdAt" desc;
         startAfter sample_doc; limit 6] ].
Proof.
  destruct (getPostsWithOptions_issues_one_query one_doc_store
              (mkOptions (Some tech) None (Some sample_doc)))
    as (Hissued & _).
  - unfold limitCountOf. cbn. lia.
  - exact Hissued.
Defined.

(** C8. When the store rejects the query, the call is rejected with that
    very error, after that one query: nothing is retried and no page is
    returned. *)
Theorem getPostsWithOptions_propagates_rejection
    (getDocs : Query -> Outcome (list Doc)) (options : GetPostsOptions)
    (e : FirestoreError) :
  getDocs (pageQuery options) = Rejected e ->
  run getDocs (getPostsWithOptions options)
  = (Rejected e, [pageQuery options]).
Proof. intros He. by rewrite run_getPostsWithOptions, He. Qed.

Lemma getPostsWithOptions_propagates_rejection_witness :
  run rejecting_store (getPostsWithOptions (mkOptions None None None))
  = (Rejected unavailable,
     [query "posts" [orderBy "createdAt" desc; limit 6]]).
Proof.
  apply (getPostsWithOptions_propagates_rejection rejecting_store
           (mkOptions None None None) unavailable).
  reflexivity.
Defined.

(** ** The cursor of a page *)

(** C4. For every call the store answers, the items are those of the
    documents kept of the answer and the cursor is the handle of the last
    document kept, a document of the answer whose item is the last item;
    it is [null] exactly when there is no item.  For a page size of at
    least 0 the documents kept are the first [pageSize] of the answer.  A
    store that has nothing to return gives the empty page: no item, no
    cursor, nothing more. *)
Theorem getPostsWithOptions_cursor
    (getDocs : Query -> Outcome (list Doc)) (options : GetPostsOptions)
    (docs : list Doc) :
  getDocs (pageQuery options) = Fulfilled docs ->
  exists r,
    (run getDocs (getPostsWithOptions options)).1 = Fulfilled r
    /\ hasMore r
       = bool_decide (limitCountOf options < Z.of_nat (length docs))%Z
    /\ posts r
       = toListItem <$>
           (if hasMore r then slice docs 0 (limitCountOf options) else docs)
    /\ lastDoc r
       = last (if hasMore r then slice docs 0 (limitCountOf options)
               else docs)
    /\ (lastDoc r = None <-> posts r = [])
    /\ (forall d,
          lastDoc r = Some d ->
          d ∈ docs /\ last (posts r) = Some (toListItem d))
    /\ ((0 <= limitCountOf options)%Z ->
        posts r
        = toListItem <$> take (Z.to_nat (limitCountOf options)) docs
        /\ lastDoc r = last (take (Z.to_nat (limitCountOf options)) docs))
    /\ ((0 <= limitCountOf options)%Z -> docs = [] ->
        r = mkResult [] None false).
Proof.
  intros Hdocs. exists (pageOf (limitCountOf options) docs).
  rewrite run_getPostsWithOptions, Hdocs. cbn [fst].
  split; [reflexivity|]. split; [reflexivity|].
  assert (Hposts : posts (pageOf (limitCountOf options) docs)
                   = toListItem <$>
                       (if hasMore (pageOf (limitCountOf options) docs)
                        then slice docs 0 (limitCountOf options) else docs))
    by reflexivity.
  assert (Hlast : lastDoc (pageOf (limitCountOf options) docs)
                  = last (if hasMore (pageOf (limitCountOf options) docs)
                          then slice docs 0 (limitCountOf options)
                          else docs))
    by (cbn [pageOf lastDoc hasMore]; apply last_or_null_last).
  split; [exact Hposts|]. split; [exact Hlast|].
  split; [|split; [|split]].
  - rewrite Hposts, Hlast, last_None. split.
    + by intros ->.
    + apply fmap_nil_inv.
  - intros d Hd. rewrite Hposts, fmap_last. rewrite Hlast in Hd.
    rewrite Hd. split; [|done].
    apply last_Some_elem_of in Hd.
    destruct (hasMore (pageOf (limitCountOf options) docs)); [|done].
    unfold slice in Hd. apply subseteq_take in Hd.
    by apply subseteq_drop in Hd.
  - intros Hn. rewrite Hlast, pageOf_posts by done.
    rewrite pageOf_hasMore. case_bool_decide as Hmore.
    + by rewrite slice_prefix.
    + by rewrite take_ge by lia.
  - intros Hn ->. by apply pageOf_empty.
Qed.

Lemma getPostsWithOptions_cursor_witness :
  (exists r,
      (run (Store.getDocs sample_contents)
         (getPostsWithOptions (mkOptions (Some life) (Some 1%Z) None))).1
      = Fulfilled r
      /\ posts r = [toListItem (sample_post "b" "life" 5)]
      /\ lastDoc r = Some (sample_post "b" "life" 5))
  /\ exists r,
       (run (Store.getDocs empty_contents)
          (getPostsWithOptions (mkOptions (Some life) (Some 1%Z) None))).1
       = Fulfilled r
       /\ r = mkResult [] None false.
Proof.
  split.
  - destruct (getPostsWithOptions_cursor (Store.getDocs sample_contents)
                (mkOptions (Some life) (Some 1%Z) None)
                [sample_post "b" "life" 5; sample_post "e" "life" 2])
      as (r & Hr & _ & _ & _ & _ & _ & Htake & _).
    + vm_compute. reflexivity.
    + exists r. split; [exact Hr|]. apply Htake.
      unfold limitCountOf. cbn. lia.
  - destruct (getPostsWithOptions_cursor (Store.getDocs empty_contents)
                (mkOptions (Some life) (Some 1%Z) None) [])
      as (r & Hr & _ & _ & _ & _ & _ & _ & Hempty).
    + vm_compute. reflexivity.
    + exists r. split; [exact Hr|].
      apply Hempty; [unfold limitCountOf; cbn; lia | reflexivity].
Defined.

(** ** Page size zero *)

(** C10. The page size is not validated.  With page size 0 the call
    issues a query with bound 1; when the store returns a document, the
    page has no item and no cursor and yet says there is more, so a walk
    from the first page never comes to an end. *)
Theorem pageSize_zero_makes_no_progress
    (getDocs : Query -> Outcome (list Doc)) (category : option Category)
    (cursor : option Doc) (docs : list Doc) :
  getDocs (pageQuery (mkOptions category (Some 0%Z) cursor))
  = Fulfilled docs ->
  docs <> [] ->
  pageQuery (mkOptions category (Some 0%Z) cursor)
  = query "posts"
      (category_filter category ++ [orderBy "createdAt" desc]
       ++ cursor_constraint cursor ++ [limit 1])
  /\ run getDocs (getPostsWithOptions (mkOptions category (Some 0%Z) cursor))
     = (Fulfilled (mkResult [] None true),
        [pageQuery (mkOptions category (Some 0%Z) cursor)])
  /\ (cursor = None ->
      forall fuel, fetchAllPages getDocs fuel category 0 None = None).
Proof.
  intros Hdocs Hne. split; [apply pageQuery_constraints|].
  split.
  - rewrite run_getPostsWithOptions, Hdocs.
    cbn [opt_limitCount limitCountOf]. by rewrite pageOf_zero.
  - intros ->. induction fuel as [|fuel IH]; [done|].
    cbn [fetchAllPages]. rewrite run_getPostsWithOptions, Hdocs.
    cbn [fst opt_limitCount limitCountOf].
    rewrite pageOf_zero by done. cbn [hasMore lastDoc]. by rewrite IH.
Qed.

Lemma pageSize_zero_makes_no_progress_witness :
  run (Store.getDocs sample_contents)
    (getPostsWithOptions (mkOptions None (Some 0%Z) None))
  = (Fulfilled (mkResult [] None true),
     [query "posts" [orderBy "createdAt" desc; limit 1]])
  /\ fetchAllPages (Store.getDocs sample_contents) 50 None 0 None = None.
Proof.
  destruct (pageSize_zero_makes_no_progress (Store.getDocs sample_contents)
              None None [sample_doc])
    as (Hq & Hrun & Hloop).
  - vm_compute. reflexivity.
  - discriminate.
  - split; [|by apply Hloop]. rewrite Hrun, Hq. reflexivity.
Defined.

(** ** The two copies of [getPosts] *)

Lemma toPostSummary_carries (d : Doc) :
  carries PostSummary_fields (PostsCopy1.toPostSummary d) d.
Proof. unfold carries, PostSummary_fields. repeat constructor. Qed.

Lemma run_getPosts getDocs :
  run getDocs PostsCopy1.getPosts
  = match getDocs (query "posts" [orderBy "createdAt" desc]) with
    | Fulfilled docs =>
        (Fulfilled (PostsCopy1.toPostSummary <$> docs),
         [query "posts" [orderBy "createdAt" desc]])
    | Rejected e => (Rejected e, [query "posts" [orderBy "createdAt" desc]])
    end.
Proof.
  unfold PostsCopy1.getPosts, postsCollection, POSTS_COLLECTION.
  cbn [run]. by destruct (getDocs _).
Qed.

(** C9. [getPosts] of [posts.ts] and [getPosts] of [posts copy 1.ts] are
    equivalent: against any store both issue the same query, the
    descending [createdAt] listing of the post collection, and settle
    alike, a fulfilled call with the same summaries of the same documents
    in the same order. *)
Theorem getPosts_equivalent (getDocs : Query -> Outcome (list Doc)) :
  run getDocs Posts.getPosts = run getDocs PostsCopy1.getPosts
  /\ (run getDocs Posts.getPosts).2
     = [query "posts" [orderBy "createdAt" desc]]
  /\ (forall d, Posts.toPostSummary d = PostsCopy1.toPostSummary d)
  /\ (forall docs,
        getDocs (query "posts" [orderBy "createdAt" desc]) = Fulfilled docs ->
        (run getDocs Posts.getPosts).1
        = Fulfilled (Posts.toPostSummary <$> docs)
        /\ (run getDocs PostsCopy1.getPosts).1
           = Fulfilled (PostsCopy1.toPostSummary <$> docs)).
Proof.
  assert (Heq : run getDocs Posts.getPosts = run getDocs PostsCopy1.getPosts)
    by reflexivity.
  split; [exact Heq|]. rewrite Heq, run_getPosts.
  split; [by destruct (getDocs _)|]. split; [reflexivity|].
  intros docs ->. split; reflexivity.
Qed.

Lemma getPosts_equivalent_witness :
  (run one_doc_store Posts.getPosts).1
  = Fulfilled [Posts.toPostSummary sample_doc]
  /\ (run one_doc_store PostsCopy1.getPosts).1
     = Fulfilled [PostsCopy1.toPostSummary sample_doc].
Proof.
  destruct (getPosts_equivalent one_doc_store) as (_ & _ & _ & Hdocs).
  apply (Hdocs [sample_doc]). reflexivity.
Defined.

(** ** List items *)

Lemma toListItem_carries (d : Doc) :
  carries ListItem_fields (toListItem d) d.
Proof. unfold carries, ListItem_fields. repeat constructor. Qed.

Lemma toListItem_other_fields (d : Doc) (f : string) :
  f ∉ ListItem_fields -> toListItem d !! f = None.
Proof.
  intros Hf. unfold toListItem. apply not_elem_of_list_to_map_1.
  exact Hf.
Qed.

(** Counterexample to C3 as stated: the item that [getPostsWithOptions]
    and the realtime listener make of a document that has an [authorId]
    does not carry it. *)
Lemma list_item_lacks_authorId :
  (run one_doc_store (getPostsWithOptions (mkOptions None None None))).1
  = Fulfilled (mkResult [toListItem sample_doc] (Some sample_doc) false)
  /\ snapshotListener "render" [sample_doc]
     = [invoke "render" [toListItem sample_doc]]
  /\ prop (doc_data sample_doc) "authorId" = JString "u1"
  /\ prop (toListItem sample_doc) "authorId" = JUndefined
  /\ ~ carries PostSummary_fields (toListItem sample_doc) sample_doc.
Proof.
  split; [vm_compute; reflexivity|].
  split; [reflexivity|]. split; [vm_compute; reflexivity|].
  split; [vm_compute; reflexivity|].
  apply (bool_decide_eq_false_1
           (carries PostSummary_fields (toListItem sample_doc) sample_doc)).
  vm_compute. reflexivity.
Qed.

(** C3, amended.  Every item returned by [getPostsWithOptions] and every
    item handed to the callback of [subscribeToPostsRealtime] is made of a
    raw document the store returned and carries its [id], [title],
    [category], [authorEmail], [authorDisplayName] and [createdAt], and no
    other property: [authorId], [viewCount] and [thumbnailUrl] are left
    out. *)
Theorem list_items_carry_six_fields :
  (forall getDocs options docs,
      getDocs (pageQuery options) = Fulfilled docs ->
      exists r returned,
        (run getDocs (getPostsWithOptions options)).1 = Fulfilled r
        /\ returned ⊆ docs
        /\ posts r = toListItem <$> returned)
  /\ (forall callback docs,
        snapshotListener callback docs
        = [invoke callback (toListItem <$> docs)])
  /\ (forall d,
        carries ListItem_fields (toListItem d) d
        /\ dom (toListItem d) = list_to_set ListItem_fields
        /\ forall f, f ∉ ListItem_fields -> prop (toListItem d) f = JUndefined).
Proof.
  split; [|split].
  - intros getDocs options docs Hdocs.
    destruct (pageOf_lastDoc (limitCountOf options) docs)
      as (returned & Hposts & _ & Hsub).
    rewrite run_getPostsWithOptions, Hdocs. cbn [fst].
    eexists _, returned. split; [reflexivity|]. by split.
  - reflexivity.
  - intros d. split; [apply toListItem_carries|]. split.
    + unfold toListItem. rewrite dom_list_to_map_L. reflexivity.
    + intros f Hf. unfold prop. by rewrite toListItem_other_fields.
Qed.

Lemma list_items_carry_six_fields_witness :
  (exists r returned,
      (run one_doc_store (getPostsWithOptions (mkOptions None None None))).1
      = Fulfilled r
      /\ returned ⊆ [sample_doc]
      /\ posts r = toListItem <$> returned)
  /\ prop (toListItem sample_doc) "viewCount" = JUndefined.
Proof.
  destruct list_items_carry_six_fields as (Hitems & _ & Hfields).
  split.
  - apply (Hitems one_doc_store (mkOptions None None None) [sample_doc]).
    reflexivity.
  - destruct (Hfields sample_doc) as (_ & _ & Hother).
    apply Hother. apply (bool_decide_unpack _). vm_compute. exact I.
Defined.

(** ** The store's listing *)

Section Listing.
Import Store.

#[local] Instance newest_first_total : Total newest_first.
Proof. intros p1 p2. unfold newest_first. lia. Qed.

#[local] Instance newest_first_trans : Transitive newest_first.
Proof. intros p1 p2 p3. unfold newest_first. lia. Qed.

Lemma clauses_of_page category cursor n :
  where_clauses (category_filter category ++ [orderBy "createdAt" desc]
                 ++ cursor_constraint cursor ++ [limit n])
  = category_clauses category
  /\ order_clause (category_filter category ++ [orderBy "createdAt" desc]
                   ++ cursor_constraint cursor ++ [limit n])
     = Some ("createdAt", desc)
  /\ cursor_clause (category_filter category ++ [orderBy "createdAt" desc]
                    ++ cursor_constraint cursor ++ [limit n])
     = cursor
  /\ limit_clause (category_filter category ++ [orderBy "createdAt" desc]
                   ++ cursor_constraint cursor ++ [limit n])
     = Some n.
Proof. by destruct category, cursor. Qed.

Lemma clauses_of_listing category :
  where_clauses (category_filter category ++ [orderBy "createdAt" desc])
  = category_clauses category
  /\ order_clause (category_filter category ++ [orderBy "createdAt" desc])
     = Some ("createdAt", desc).
Proof. by destruct category. Qed.

Lemma listing_unfold contents category :
  listing contents category
  = (merge_sort newest_first
       (keyed "createdAt"
          (filter (satisfies (category_clauses category))
             (contents "posts")))).*2.
Proof.
  unfold listing, matching. cbn [q_constraints q_collection].
  destruct (clauses_of_listing category) as (-> & ->). reflexivity.
Qed.

Lemma matching_pageQuery contents options :
  matching contents (pageQuery options)
  = listing contents (opt_category options).
Proof.
  rewrite listing_unfold, pageQuery_constraints. unfold matching.
  cbn [q_constraints q_collection].
  destruct (clauses_of_page (opt_category options) (opt_lastDoc options)
              (limitCountOf options + 1))
    as (-> & -> & _). reflexivity.
Qed.

(** What the store answers to the query of a page. *)
Lemma getDocs_pageQuery contents options :
  getDocs contents (pageQuery options)
  = match resume (opt_lastDoc options)
            (listing contents (opt_category options)) with
    | Rejected e => Rejected e
    | Fulfilled l => bound (Some (limitCountOf options + 1)%Z) l
    end.
Proof.
  unfold getDocs. rewrite matching_pageQuery, pageQuery_constraints.
  cbn [q_constraints].
  destruct (clauses_of_page (opt_category options) (opt_lastDoc options)
              (limitCountOf options + 1))
    as (_ & _ & -> & ->). reflexivity.
Qed.

Lemma keyed_snd f l :
  (keyed f l).*2 = filter (fun d => is_Some (sort_key f d)) l.
Proof.
  induction l as [|d l IH]; [done|].
  unfold keyed in *. cbn [omap list_omap]. rewrite filter_cons.
  destruct (sort_key f d) as [k|] eqn:Hk.
  - rewrite decide_True by eauto. cbn [fmap list_fmap snd]. by f_equal.
  - rewrite decide_False by (by intros [? ?]). done.
Qed.

Lemma keyed_keys f l :
  Forall (fun p => sort_key f p.2 = Some p.1) (keyed f l).
Proof.
  induction l as [|d l IH]; [constructor|].
  unfold keyed in *. cbn [omap list_omap].
  destruct (sort_key f d) as [k|] eqn:Hk; [|done].
  constructor; done.
Qed.

(** The listing is a rearrangement of the matching documents. *)
Lemma listing_Permutation contents category :
  listing contents category
  ≡ₚ filter (is_matching category) (contents "posts").
Proof.
  rewrite listing_unfold, merge_sort_Permutation, keyed_snd.
  rewrite list_filter_filter.
  erewrite list_filter_iff; [reflexivity|].
  intros d. unfold is_matching. tauto.
Qed.

Lemma listing_NoDup contents category :
  NoDup (doc_id <$> contents "posts") ->
  NoDup (doc_id <$> listing contents category).
Proof.
  intros Hnd. rewrite listing_Permutation.
  apply (sublist_NoDup _ (doc_id <$> contents "posts")); [exact Hnd|].
  apply fmap_sublist, sublist_filter.
Qed.

Lemma sorted_pairs_docs (ps : list (Z * Doc)) :
  Forall (fun p => sort_key "createdAt" p.2 = Some p.1) ps ->
  StronglySorted newest_first ps ->
  StronglySorted not_older ps.*2.
Proof.
  intros Hkeys Hsorted.
  induction Hsorted as [|p ps Hs IH Hall]; [constructor|].
  apply Forall_cons in Hkeys as [Hp Hps].
  cbn [fmap list_fmap]. constructor; [by apply IH|].
  apply Forall_fmap, Forall_forall. intros p' Hin.
  rewrite Forall_forall in Hall, Hps.
  exists p.1, p'.1. split; [done|]. split; [by apply Hps|].
  by apply Hall.
Qed.

(** The listing is in descending order of [createdAt]. *)
Lemma listing_sorted contents category :
  StronglySorted not_older (listing contents category).
Proof.
  rewrite listing_unfold. apply sorted_pairs_docs.
  - rewrite merge_sort_Permutation. apply keyed_keys.
  - apply StronglySorted_merge_sort; apply _.
Qed.

End Listing.

(** ** Walking the listing *)

Lemma after_middle (l1 : list Doc) (d : Doc) (l2 : list Doc) :
  NoDup (doc_id <$> (l1 ++ d :: l2)) ->
  Store.after d (l1 ++ d :: l2) = Some l2.
Proof.
  induction l1 as [|x l1 IH]; intros Hnd.
  - cbn [app Store.after]. by rewrite decide_True.
  - cbn [app Store.after]. cbn [app fmap list_fmap] in Hnd.
    apply NoDup_cons in Hnd as [Hx Hnd].
    rewrite decide_False; [by apply IH|].
    intros Heq. apply Hx. rewrite Heq.
    apply list_elem_of_fmap_2. apply elem_of_app. right. left.
Qed.

Section Walk.
Variable contents : string -> list Doc.
Variable category : option Category.
Variable pageSize : Z.
Hypothesis pageSize_pos : (1 <= pageSize)%Z.
Hypothesis ids_unique : NoDup (doc_id <$> contents "posts").

Lemma run_page cursor rest :
  Store.resume cursor (listing contents category) = Fulfilled rest ->
  (run (Store.getDocs contents)
     (getPostsWithOptions (mkOptions category (Some pageSize) cursor))).1
  = Fulfilled (pageOf pageSize (take (Z.to_nat (pageSize + 1)) rest)).
Proof using pageSize_pos.
  intros Hrest. rewrite run_getPostsWithOptions, getDocs_pageQuery.
  cbn [opt_lastDoc opt_category opt_limitCount limitCountOf].
  rewrite Hrest. unfold Store.bound.
  by rewrite bool_decide_eq_true_2 by lia.
Qed.

(** The cursor of a full page resumes right after that page. *)
Lemma resume_after_page seen rest d :
  listing contents category = seen ++ rest ->
  Z.to_nat pageSize < length rest ->
  last (take (Z.to_nat pageSize) rest) = Some d ->
  Store.resume (Some d) (listing contents category)
  = Fulfilled (drop (Z.to_nat pageSize) rest).
Proof using pageSize_pos ids_unique.
  intros HL Hlen Hlast.
  pose proof (listing_NoDup contents category ids_unique) as Hnd.
  rewrite last_lookup, length_take in Hlast.
  replace (Z.to_nat pageSize `min` length rest) with (Z.to_nat pageSize)
    in Hlast by lia.
  rewrite lookup_take_lt in Hlast by lia.
  assert (Hsplit : rest = take (pred (Z.to_nat pageSize)) rest
                          ++ d :: drop (Z.to_nat pageSize) rest).
  { rewrite <- (take_drop_middle rest (pred (Z.to_nat pageSize)) d) at 1
      by done.
    do 3 f_equal. lia. }
  unfold Store.resume. rewrite HL in Hnd |- *.
  rewrite Hsplit in Hnd |- *. rewrite app_assoc in Hnd |- *.
  rewrite after_middle by done.
  rewrite <- Hsplit. reflexivity.
Qed.

(** From any point of the listing, a walk with enough fuel ends and its
    pages make up the rest of the listing. *)
Lemma walk_rest fuel :
  forall seen rest cursor,
    listing contents category = seen ++ rest ->
    Store.resume cursor (listing contents category) = Fulfilled rest ->
    length rest < fuel ->
    exists pages,
      fetchAllPages (Store.getDocs contents) fuel category pageSize cursor
      = Some pages
      /\ concat pages = toListItem <$> rest
      /\ Forall (fun p => length p <= Z.to_nat pageSize) pages.
Proof using pageSize_pos ids_unique.
  induction fuel as [|fuel IH]; intros seen rest cursor HL Hres Hfuel;
    [lia|].
  cbn [fetchAllPages]. rewrite (run_page cursor rest Hres).
  rewrite pageOf_overfetch by lia.
  destruct (decide (length rest <= Z.to_nat pageSize)) as [Hle|Hgt].
  - cbn [hasMore posts]. eexists. split; [reflexivity|].
    cbn [concat]. rewrite app_nil_r. split; [done|].
    constructor; [|constructor]. by rewrite length_fmap.
  - cbn [hasMore posts lastDoc].
    destruct (last (take (Z.to_nat pageSize) rest)) as [d|] eqn:Hlast.
    2:{ apply last_None in Hlast.
        apply (f_equal length) in Hlast.
        rewrite length_take in Hlast. simpl in Hlast. lia. }
    destruct (IH (seen ++ take (Z.to_nat pageSize) rest)
                (drop (Z.to_nat pageSize) rest) (Some d))
      as (pages & Hpages & Hconcat & Hsizes).
    + by rewrite <- app_assoc, take_drop.
    + apply (resume_after_page seen rest d); [done | lia | done].
    + rewrite length_drop. lia.
    + rewrite Hpages. eexists. split; [reflexivity|].
      cbn [concat]. rewrite Hconcat, <- fmap_app, take_drop.
      split; [done|]. constructor; [|done].
      rewrite length_fmap, length_take. lia.
Qed.

End Walk.

(** C2. Over a fixed post collection with distinct identifiers and with a
    page size of at least 1, the walk that feeds each cursor into the next
    call ends, and its pages, put end to end, are the store's listing of
    the matching documents: every matching document, each once, newest
    first. *)
Theorem fetchAllPages_visits_every_document
    (contents : string -> list Doc) (category : option Category)
    (pageSize : Z) (fuel : nat) :
  NoDup (doc_id <$> contents "posts") ->
  (1 <= pageSize)%Z ->
  length (listing contents category) < fuel ->
  exists pages,
    fetchAllPages (Store.getDocs contents) fuel category pageSize None
    = Some pages
    /\ concat pages = toListItem <$> listing contents category
    /\ Forall (fun p => length p <= Z.to_nat pageSize) pages
    /\ listing contents category
       ≡ₚ filter (is_matching category) (contents "posts")
    /\ NoDup (doc_id <$> listing contents category)
    /\ StronglySorted not_older (listing contents category).
Proof.
  intros Hids Hsize Hfuel.
  destruct (walk_rest contents category pageSize Hsize Hids fuel
              [] (listing contents category) None)
    as (pages & Hpages & Hconcat & Hsizes); [done | done | done |].
  exists pages. split; [done|]. split; [done|]. split; [done|].
  split; [apply listing_Permutation|].
  split; [by apply listing_NoDup | apply listing_sorted].
Qed.

Lemma fetchAllPages_visits_every_document_witness :
  exists pages,
    fetchAllPages (Store.getDocs sample_contents) 6 (Some tech) 2 None
    = Some pages
    /\ concat pages = toListItem <$> listing sample_contents (Some tech)
    /\ Forall (fun p => length p <= 2) pages.
Proof.
  destruct (fetchAllPages_visits_every_document sample_contents (Some tech)
              2 6) as (pages & Hpages & Hconcat & Hsizes & _).
  - apply (bool_decide_unpack _). vm_compute. exact I.
  - lia.
  - vm_compute. lia.
  - exists pages. split; [exact Hpages|]. split; [exact Hconcat|].
    exact Hsizes.
Defined.

Example sample_walk :
  option_map (map (map (fun o => prop o "id")))
    (fetchAllPages (Store.getDocs sample_contents) 6 (Some tech) 2 None)
  = Some [[JString "d"; JString "f"]; [JString "g"; JString "c"];
          [JString "a"]].
Proof. vm_compute. reflexivity. Qed.

(** The scenario of the specification: seven posts, page size 5. *)
Example sample_two_pages :
  option_map (map (map (fun o => prop o "id")))
    (fetchAllPages (Store.getDocs sample_contents) 8 None 5 None)
  = Some [[JString "d"; JString "f"; JString "b"; JString "g"; JString "c"];
          [JString "e"; JString "a"]].
Proof. vm_compute. reflexivity. Qed.

(** ** The standing query *)

Lemma standingQuery_constraints options :
  standingQuery options
  = query "posts"
      (category_filter (sub_category options)
       ++ [orderBy "createdAt" desc; limit (subLimitCountOf options)]).
Proof.
  unfold standingQuery, push, postsCollection, POSTS_COLLECTION.
  rewrite push_category_filter.
  by rewrite app_nil_l, <- !app_assoc.
Qed.

Lemma clauses_of_standing category n :
  Store.where_clauses
    (category_filter category ++ [orderBy "createdAt" desc; limit n])
  = category_clauses category
  /\ Store.order_clause
       (category_filter category ++ [orderBy "createdAt" desc; limit n])
     = Some ("createdAt", desc)
  /\ Store.cursor_clause
       (category_filter category ++ [orderBy "createdAt" desc; limit n])
     = None
  /\ Store.limit_clause
       (category_filter category ++ [orderBy "createdAt" desc; limit n])
     = Some n.
Proof. by destruct category. Qed.

(** What the store answers to the standing query: the newest [limitCount]
    matching documents. *)
Lemma getDocs_standingQuery contents options :
  (1 <= subLimitCountOf options)%Z ->
  Store.getDocs contents (standingQuery options)
  = Fulfilled (currentResult contents options).
Proof.
  intros Hn. unfold currentResult.
  rewrite listing_unfold, standingQuery_constraints.
  unfold Store.getDocs, Store.matching. cbn [q_constraints q_collection].
  destruct (clauses_of_standing (sub_category options)
              (subLimitCountOf options))
    as (-> & -> & -> & ->).
  cbn [Store.resume Store.bound Store.ordered].
  by rewrite bool_decide_eq_true_2 by lia.
Qed.

Lemma notify_snapshotListener old new h q callback :
  Store.notify old new (h, (q, snapshotListener callback)) = []
  \/ exists docs,
       Store.getDocs new q = Fulfilled docs
       /\ Store.getDocs old q <> Fulfilled docs
       /\ Store.notify old new (h, (q, snapshotListener callback))
          = [(h, invoke callback (toListItem <$> docs))].
Proof.
  unfold Store.notify. cbn [fst snd].
  destruct (Store.getDocs new q) as [docs|e]; [|by left].
  destruct (decide (Store.getDocs old q = Fulfilled docs)); [by left|].
  right. by exists docs.
Qed.

(** C6. With a page size of at least 1 (20 when unspecified),
    [subscribeToPostsRealtime] adds exactly one standing query to the
    store: the equality filter on [category] exactly when a category is
    given, the descending sort on [createdAt] and the bound [pageSize],
    without cursor.  On registration the callback is invoked once with the
    items of the current result, the newest [pageSize] matching documents,
    be it empty; afterwards every snapshot the store hands to the listener
    makes one invocation of the callback, with the items of that
    snapshot. *)
Theorem subscribeToPostsRealtime_registers
    (s : Store.State) (callback : string) (options : SubscribeOptions) :
  (1 <= subLimitCountOf options)%Z ->
  standingQuery options
  = query "posts"
      (category_filter (sub_category options)
       ++ [orderBy "createdAt" desc; limit (subLimitCountOf options)])
  /\ subLimitCountOf options
     = match sub_limitCount options with Some n => n | None => 20%Z end
  /\ Store.getDocs (Store.contents s) (standingQuery options)
     = Fulfilled (currentResult (Store.contents s) options)
  /\ subscribeToPostsRealtime Store.onSnapshot callback options s
     = (Fulfilled (Store.next_handle s),
        Store.mkState (Store.contents s)
          (Store.listeners s
           ++ [(Store.next_handle s,
                (standingQuery options, snapshotListener callback))])
          (S (Store.next_handle s)),
        [(Store.next_handle s,
          invoke callback
            (toListItem <$> currentResult (Store.contents s) options))])
  /\ (forall docs,
        snapshotListener callback docs
        = [invoke callback (toListItem <$> docs)])
  /\ (forall h old new,
        Store.notify old new
          (h, (standingQuery options, snapshotListener callback)) = []
        \/ exists docs,
             Store.getDocs new (standingQuery options) = Fulfilled docs
             /\ Store.getDocs old (standingQuery options) <> Fulfilled docs
             /\ Store.notify old new
                  (h, (standingQuery options, snapshotListener callback))
                = [(h, invoke callback (toListItem <$> docs))]).
Proof.
  intros Hsize.
  split; [apply standingQuery_constraints|]. split; [reflexivity|].
  split; [by apply getDocs_standingQuery|]. split.
  - unfold subscribeToPostsRealtime, Store.onSnapshot.
    rewrite getDocs_standingQuery by done. reflexivity.
  - split; [reflexivity|]. intros h old new.
    apply notify_snapshotListener.
Qed.

Lemma subscribeToPostsRealtime_registers_witness :
  subscribeToPostsRealtime Store.onSnapshot "render"
    (mkSubscribeOptions (Some life) None) sample_store
  = (Fulfilled 0,
     Store.mkState sample_contents
       [(0, (standingQuery (mkSubscribeOptions (Some life) None),
             snapshotListener "render"))]
       1,
     [(0, invoke "render"
            (toListItem <$>
               currentResult sample_contents
                 (mkSubscribeOptions (Some life) None)))]).
Proof.
  destruct (subscribeToPostsRealtime_registers sample_store "render"
              (mkSubscribeOptions (Some life) None))
    as (_ & _ & _ & Hsub & _).
  - unfold subLimitCountOf. cbn. lia.
  - exact Hsub.
Defined.

Example sample_standingQuery :
  standingQuery (mkSubscribeOptions (Some life) None)
  = query "posts"
      [where_eq "category" (JString "life"); orderBy "createdAt" desc;
       limit 20].
Proof. reflexivity. Qed.

Example sample_currentResult :
  currentResult sample_contents (mkSubscribeOptions (Some life) None)
  = [sample_post "b" "life" 5; sample_post "e" "life" 2].
Proof. vm_compute. reflexivity. Qed.

(** ** Cancelling a subscription *)

Section Cancellation.
Import Store.

Lemma step_next_handle s a :
  next_handle s <= next_handle (step s a).1.
Proof.
  destruct a as [q l|h|c docs]; cbn [step]; [|done|done].
  unfold onSnapshot. destruct (getDocs _ _); cbn; lia.
Qed.

Lemma exec_next_handle s acts :
  next_handle s <= next_handle (state_after s acts).
Proof.
  unfold state_after.
  revert s. induction acts as [|a acts IH]; intros s; [done|].
  cbn [exec]. pose proof (step_next_handle s a) as Hstep.
  destruct (step s a) as [s1 d1]. specialize (IH s1).
  destruct (exec s1 acts) as [s2 d2]. cbn [fst] in *. lia.
Qed.

Lemma step_issued_before s a :
  issued_before s -> issued_before (step s a).1.
Proof.
  unfold issued_before. intros Hs.
  destruct a as [q l|h|c docs]; cbn [step].
  - unfold onSnapshot. destruct (getDocs _ _); cbn; [|done].
    apply Forall_app. split.
    + eapply Forall_impl; [exact Hs|]. cbn. lia.
    + repeat constructor.
  - cbn. by apply filter_keeps_Forall.
  - done.
Qed.

Lemma exec_issued_before s acts :
  issued_before s -> issued_before (state_after s acts).
Proof.
  unfold state_after.
  revert s. induction acts as [|a acts IH]; intros s Hs; [done|].
  cbn [exec]. pose proof (step_issued_before s a Hs) as Hstep.
  destruct (step s a) as [s1 d1]. specialize (IH s1 Hstep).
  by destruct (exec s1 acts) as [s2 d2].
Qed.

Lemma init_issued_before contents : issued_before (init contents).
Proof. constructor. Qed.

Lemma notify_handle old new e :
  Forall (fun d => d.1 = e.1) (notify old new e).
Proof.
  unfold notify. destruct (getDocs new _); [|constructor].
  destruct (decide _); [constructor|].
  apply Forall_fmap, Forall_true. done.
Qed.

Lemma filter_notify h old new l :
  filter (fun d : Delivery => d.1 <> h) (concat (notify old new <$> l))
  = concat (notify old new <$> filter (fun e => e.1 <> h) l).
Proof.
  induction l as [|e l IH]; [done|].
  cbn [fmap list_fmap concat]. rewrite filter_app, IH, filter_cons.
  pose proof (notify_handle old new e) as He.
  destruct (decide (e.1 <> h)) as [Hne|Heq].
  - cbn [fmap list_fmap concat]. f_equal.
    apply filter_all. eapply Forall_impl; [exact He|].
    cbn. congruence.
  - rewrite filter_none; [done|].
    eapply Forall_impl; [exact He|]. cbn. intros d Hd Hneq.
    apply Heq. congruence.
Qed.

Lemma step_silent h s a :
  silent h s ->
  silent h (step s a).1 /\ Forall (fun d => d.1 <> h) (step s a).2.
Proof.
  unfold silent. intros [Hlt Hall].
  destruct a as [q l|h'|c docs]; cbn [step].
  - unfold onSnapshot. destruct (getDocs _ _) as [docs|e]; cbn.
    + split; [split; [lia|]|].
      * apply Forall_app. split; [done|]. repeat constructor. cbn. lia.
      * apply Forall_fmap, Forall_true. cbn. lia.
    + by repeat split.
  - cbn. split; [split; [done|]|constructor].
    by apply filter_keeps_Forall.
  - cbn. split; [done|].
    rewrite <- (filter_all (fun e => e.1 <> h) (listeners s)) by done.
    rewrite <- filter_notify. apply filter_satisfied.
Qed.

Lemma exec_silent h s acts :
  silent h s -> Forall (fun d => d.1 <> h) (deliveries s acts).
Proof.
  unfold deliveries.
  revert s. induction acts as [|a acts IH]; intros s Hs; [constructor|].
  cbn [exec]. destruct (step_silent h s a Hs) as [Hs1 Hd1].
  destruct (step s a) as [s1 d1]. specialize (IH s1 Hs1).
  destruct (exec s1 acts) as [s2 d2]. cbn [snd] in *.
  apply Forall_app. by split.
Qed.

Lemma step_without h sa sb a :
  without h sa sb ->
  without h (step sa a).1 (step sb a).1
  /\ filter (fun d : Delivery => d.1 <> h) (step sa a).2
     = filter (fun d : Delivery => d.1 <> h) (step sb a).2.
Proof.
  unfold without. intros (Hc & Hn & Hl & Hlt).
  destruct a as [q l|h'|c docs]; cbn [step].
  - unfold onSnapshot. rewrite Hc, Hn.
    destruct (getDocs (contents sb) q) as [docs|e]; cbn.
    + split; [|done]. split; [done|]. split; [done|]. split; [|lia].
      rewrite Hl, filter_app. f_equal.
      rewrite filter_cons_True by (cbn; lia). done.
    + done.
  - cbn. split; [|done]. split; [done|]. split; [done|]. split; [|done].
    rewrite Hl, !list_filter_filter. apply list_filter_iff.
    intros e. tauto.
  - cbn. split.
    + by rewrite Hc.
    + rewrite Hc, Hl, !filter_notify. f_equal. f_equal.
      apply filter_all, filter_satisfied.
Qed.

Lemma exec_without h acts :
  forall sa sb,
    without h sa sb ->
    filter (fun d : Delivery => d.1 <> h) (deliveries sa acts)
    = filter (fun d : Delivery => d.1 <> h) (deliveries sb acts).
Proof.
  unfold deliveries.
  induction acts as [|a acts IH]; intros sa sb Hw; [done|].
  cbn [exec]. destruct (step_without h sa sb a Hw) as [Hw1 Hd1].
  destruct (step sa a) as [sa1 da1], (step sb a) as [sb1 db1].
  cbn [fst snd] in Hw1, Hd1. specialize (IH sa1 sb1 Hw1).
  destruct (exec sa1 acts) as [sa2 da2], (exec sb1 acts) as [sb2 db2].
  cbn [snd] in *. by rewrite !filter_app, Hd1, IH.
Qed.

Lemma unsubscribe_silent h s :
  h < next_handle s -> silent h (unsubscribe h s).
Proof. intros Hlt. split; [done|]. cbn. apply filter_satisfied. Qed.

Lemma unsubscribe_without h s :
  h < next_handle s -> without h (unsubscribe h s) s.
Proof. intros Hlt. by repeat split. Qed.

Lemma deliveries_Cancel s h acts :
  deliveries s (Cancel h :: acts) = deliveries (unsubscribe h s) acts.
Proof.
  unfold deliveries. cbn [exec step].
  by destruct (exec (unsubscribe h s) acts).
Qed.

End Cancellation.

(** C7. Take any store reached from an initial one, subscribe, let
    anything happen, then invoke the cancellation function.  The handle
    names this subscription only.  From the cancellation on, no callback
    invocation of the subscription occurs, whatever is written or
    registered afterwards; and the invocations of every other subscription
    are the ones that would have occurred without the cancellation.
    Likewise, cancelling another subscription leaves the invocations of
    this one as they were. *)
Theorem cancellation_silences_only_its_subscription
    (contents0 : string -> list Doc) (history : list Store.Action)
    (callback : string) (options : SubscribeOptions)
    (h : nat) (s1 : Store.State) (ds : list Store.Delivery)
    (before later : list Store.Action) :
  subscribeToPostsRealtime Store.onSnapshot callback options
    (Store.state_after (Store.init contents0) history)
  = (Fulfilled h, s1, ds) ->
  Forall (fun e => e.1 <> h)
    (Store.listeners (Store.state_after (Store.init contents0) history))
  /\ Forall (fun d => d.1 <> h)
       (Store.deliveries (Store.state_after s1 before)
          (Store.Cancel h :: later))
  /\ filter (fun d : Store.Delivery => d.1 <> h)
       (Store.deliveries (Store.state_after s1 before)
          (Store.Cancel h :: later))
     = filter (fun d : Store.Delivery => d.1 <> h)
         (Store.deliveries (Store.state_after s1 before) later)
  /\ (forall h',
        h' < Store.next_handle (Store.state_after s1 before) -> h' <> h ->
        filter (fun d : Store.Delivery => d.1 = h)
          (Store.deliveries (Store.state_after s1 before)
             (Store.Cancel h' :: later))
        = filter (fun d : Store.Delivery => d.1 = h)
            (Store.deliveries (Store.state_after s1 before) later)).
Proof.
  intros Hsub.
  set (s := Store.state_after (Store.init contents0) history) in *.
  set (s2 := Store.state_after s1 before).
  assert (Hh : h = Store.next_handle s /\ Store.next_handle s1 = S h).
  { revert Hsub. unfold subscribeToPostsRealtime, Store.onSnapshot.
    destruct (Store.getDocs _ _); [|discriminate].
    intros [= <- <- _]. done. }
  destruct Hh as [Hh Hnext].
  assert (Hlt : h < Store.next_handle s2).
  { pose proof (exec_next_handle s1 before) as Hmono. fold s2 in Hmono. lia. }
  split; [|split; [|split]].
  - pose proof (exec_issued_before (Store.init contents0) history
                  (init_issued_before contents0)) as Hissued.
    fold s in Hissued. eapply Forall_impl; [exact Hissued|].
    cbn. lia.
  - rewrite deliveries_Cancel. by apply exec_silent, unsubscribe_silent.
  - rewrite deliveries_Cancel. by apply exec_without, unsubscribe_without.
  - intros h' Hlt' Hne. rewrite deliveries_Cancel.
    pose proof (exec_without h' later _ _ (unsubscribe_without h' s2 Hlt'))
      as Heq.
    apply (f_equal (filter (fun d : Store.Delivery => d.1 = h))) in Heq.
    rewrite !list_filter_filter in Heq.
    rewrite (list_filter_iff (fun d : Store.Delivery => d.1 = h)
               (fun d : Store.Delivery => d.1 = h /\ d.1 <> h')
               (Store.deliveries (Store.unsubscribe h' s2) later))
      by (intros d; split; [intros ->; done | tauto]).
    rewrite (list_filter_iff (fun d : Store.Delivery => d.1 = h)
               (fun d : Store.Delivery => d.1 = h /\ d.1 <> h')
               (Store.deliveries s2 later))
      by (intros d; split; [intros ->; done | tauto]).
    exact Heq.
Qed.

Lemma cancellation_silences_only_its_subscription_witness :
  Forall (fun d => d.1 <> 0)
    (Store.deliveries
       (Store.state_after sample_subscribed
          [Store.Commit "posts" [sample_doc]])
       [Store.Cancel 0; Store.Commit "posts" sample_posts]).
Proof.
  destruct (cancellation_silences_only_its_subscription empty_contents []
              "render" (mkSubscribeOptions None (Some 2%Z)) 0
              sample_subscribed [(0, invoke "render" [])]
              [Store.Commit "posts" [sample_doc]]
              [Store.Commit "posts" sample_posts])
    as (_ & Hsilent & _).
  - reflexivity.
  - exact Hsilent.
Defined.

(** A run of the store: a subscription of page size 2, a first post, a
    second subscription for the category "life", the cancellation of the
    first, and the arrival of the sample posts. *)
Example sample_run :
  map (fun d : Store.Delivery =>
         (d.1, inv_callback d.2, map (fun o => prop o "id") (inv_posts d.2)))
    (Store.deliveries sample_subscribed
       [Store.Commit "posts" [sample_doc];
        Store.Listen (standingQuery (mkSubscribeOptions (Some life) None))
          (snapshotListener "sidebar");
        Store.Cancel 0;
        Store.Commit "posts" sample_posts])
  = [(0, "render", [JString "d"]);
     (1, "sidebar", []);
     (1, "sidebar", [JString "b"; JString "e"])].
Proof. vm_compute. reflexivity. Qed.

(** * More properties *)

(** ** Object literals *)

Lemma assign_lookup_other {V : Type} (props : list (string * V)) :
  forall (o : gmap string V) (k : string),
    k ∉ props.*1 -> assign o props !! k = o !! k.
Proof.
  unfold assign. induction props as [|[k' v] props IH]; intros o k Hk;
    [done|].
  cbn [foldl fmap list_fmap fst] in *.
  apply not_elem_of_cons in Hk as [Hne Hk].
  rewrite IH by done. by rewrite lookup_insert_ne.
Qed.

Lemma spread_empty {V : Type} (o : gmap string V) : spread ∅ o = o.
Proof. unfold spread. apply (right_id_L ∅ (∪)). Qed.

Lemma formatPost_lookup_other (d : Doc) (k : string) :
  k <> "id" -> PostsCopy1Crud.formatPost d !! k = doc_data d !! k.
Proof.
  intros Hk. unfold PostsCopy1Crud.formatPost, spread, assign.
  cbn [foldl fst snd].
  destruct (doc_data d !! k) as [v|] eqn:Hv.
  - by apply lookup_union_Some_l.
  - rewrite lookup_union_r by done. by rewrite lookup_insert_ne.
Qed.

Lemma formatPost_lookup_id (d : Doc) :
  PostsCopy1Crud.formatPost d !! "id"
  = Some (match doc_data d !! "id" with
          | Some v => v
          | None => JString (doc_id d)
          end).
Proof.
  unfold PostsCopy1Crud.formatPost, spread, assign. cbn [foldl fst snd].
  destruct (doc_data d !! "id") as [v|] eqn:Hv.
  - by apply lookup_union_Some_l.
  - rewrite lookup_union_r by done. by rewrite lookup_insert_eq.
Qed.

(** X1. [formatPost] copies every field of the document's data.  The [id]
    of the result is the document's identifier, unless the data has a
    field named [id] itself: the spread comes last, so that field wins. *)
Theorem formatPost_fields (d : Doc) :
  (forall k v,
      doc_data d !! k = Some v -> PostsCopy1Crud.formatPost d !! k = Some v)
  /\ (doc_data d !! "id" = None ->
      PostsCopy1Crud.formatPost d !! "id" = Some (JString (doc_id d)))
  /\ (forall k,
        k <> "id" -> PostsCopy1Crud.formatPost d !! k = doc_data d !! k)
  /\ dom (PostsCopy1Crud.formatPost d) = {["id"]} ∪ dom (doc_data d)
  /\ PostsCrud.formatPost d = PostsCopy1Crud.formatPost d.
Proof.
  split; [|split; [|split; [|split]]].
  - intros k v Hv. unfold PostsCopy1Crud.formatPost, spread.
    by apply lookup_union_Some_l.
  - intros Hid. by rewrite formatPost_lookup_id, Hid.
  - apply formatPost_lookup_other.
  - unfold PostsCopy1Crud.formatPost, spread, assign. cbn [foldl fst snd].
    rewrite dom_union_L, dom_insert_L, dom_empty_L.
    rewrite (right_id_L ∅ (∪)). apply (comm_L (∪)).
  - reflexivity.
Qed.

Lemma formatPost_fields_witness :
  PostsCopy1Crud.formatPost shadowing_doc !! "id" = Some (JString "other")
  /\ PostsCopy1Crud.formatPost sample_doc !! "id" = Some (JString "d").
Proof.
  split.
  - destruct (formatPost_fields shadowing_doc) as (Hcopy & _).
    apply Hcopy. reflexivity.
  - destruct (formatPost_fields sample_doc) as (_ & Hid & _).
    apply Hid. reflexivity.
Defined.

(** ** Single documents *)

Lemma run_getPost (sdk : Sdk) (id : string) :
  runOp sdk (PostsCopy1Crud.getPost id)
  = match sdk_getDoc sdk (doc "posts" id) with
    | Fulfilled docSnap =>
        (Fulfilled
           (match snap_data docSnap with
            | Some data =>
                Some (PostsCopy1Crud.formatPost (mkDoc (snap_id docSnap) data))
            | None => None
            end),
         [ReqGetDoc (doc "posts" id)])
    | Rejected e => (Rejected e, [ReqGetDoc (doc "posts" id)])
    end.
Proof.
  unfold PostsCopy1Crud.getPost, POSTS_COLLECTION. cbn [runOp].
  destruct (sdk_getDoc sdk _) as [docSnap|e]; [|done].
  unfold snap_exists, as_query_snapshot.
  by destruct (snap_data docSnap).
Qed.

(** X2. [getPost] makes one [getDoc] request for the document of the post
    collection with the given identifier.  It returns [null] exactly when
    that document does not exist, and otherwise the formatted document. *)
Theorem getPost_null_iff_missing
    (sdk : Sdk) (id : string) (docSnap : DocumentSnapshot) :
  sdk_getDoc sdk (doc "posts" id) = Fulfilled docSnap ->
  exists r,
    runOp sdk (PostsCopy1Crud.getPost id)
    = (Fulfilled r, [ReqGetDoc (doc "posts" id)])
    /\ (r = None <-> snap_data docSnap = None)
    /\ (forall data,
          snap_data docSnap = Some data ->
          r = Some (PostsCopy1Crud.formatPost (mkDoc (snap_id docSnap) data))).
Proof.
  intros Hget. rewrite run_getPost, Hget. eexists. split; [reflexivity|].
  destruct (snap_data docSnap) as [data|]; split; try done.
  by intros data' [= <-].
Qed.

Lemma getPost_null_iff_missing_witness :
  runOp sample_sdk (PostsCopy1Crud.getPost "zz")
  = (Fulfilled None, [ReqGetDoc (doc "posts" "zz")])
  /\ exists r,
       runOp sample_sdk (PostsCopy1Crud.getPost "d")
       = (Fulfilled r, [ReqGetDoc (doc "posts" "d")])
       /\ r = Some (PostsCopy1Crud.formatPost sample_doc).
Proof.
  split.
  - destruct (getPost_null_iff_missing sample_sdk "zz" (mkSnapshot "zz" None))
      as (r & Hrun & Hnone & _); [reflexivity|].
    rewrite Hrun. by rewrite (proj2 Hnone).
  - destruct (getPost_null_iff_missing sample_sdk "d"
                (mkSnapshot "d" (Some (doc_data sample_doc))))
      as (r & Hrun & _ & Hsome); [reflexivity|].
    exists r. split; [exact Hrun|]. by apply Hsome.
Defined.

(** X3. [createPost] makes one [addDoc] request to the post collection.
    Whatever the input holds, the document written has the author fields
    of the user, both timestamps set by the server, a view count of 0 and
    no thumbnail: these are written after the spread of the input, which
    therefore cannot set them.  Every other field is the input's.  The
    call returns the identifier of the reference the store hands back. *)
Theorem createPost_sets_server_fields
    (sdk : Sdk) (postInput : JsObject) (user : User) :
  (runOp sdk (PostsCopy1Crud.createPost postInput user)).2
  = [ReqAddDoc "posts" (PostsCopy1Crud.newPost postInput user)]
  /\ PostsCopy1Crud.newPost postInput user !! "authorId"
     = Some (Plain (uid user))
  /\ PostsCopy1Crud.newPost postInput user !! "authorEmail"
     = Some (Plain (email user))
  /\ PostsCopy1Crud.newPost postInput user !! "authorDisplayName"
     = Some (Plain (if truthy (displayName user) then displayName user
                    else JNull))
  /\ PostsCopy1Crud.newPost postInput user !! "authorPhotoURL"
     = Some (Plain (if truthy (photoURL user) then photoURL user else JNull))
  /\ PostsCopy1Crud.newPost postInput user !! "createdAt"
     = Some ServerTimestamp
  /\ PostsCopy1Crud.newPost postInput user !! "updatedAt"
     = Some ServerTimestamp
  /\ PostsCopy1Crud.newPost postInput user !! "viewCount"
     = Some (Plain (JNumber 0))
  /\ PostsCopy1Crud.newPost postInput user !! "thumbnailUrl"
     = Some (Plain JNull)
  /\ (forall k,
        k ∉ created_fields ->
        PostsCopy1Crud.newPost postInput user !! k
        = Plain <$> postInput !! k)
  /\ (forall docRef,
        sdk_addDoc sdk "posts" (PostsCopy1Crud.newPost postInput user)
        = Fulfilled docRef ->
        (runOp sdk (PostsCopy1Crud.createPost postInput user)).1
        = Fulfilled (ref_id docRef)).
Proof.
  split.
  { unfold PostsCopy1Crud.createPost, postsCollection, POSTS_COLLECTION.
    cbn [runOp]. by destruct (sdk_addDoc sdk _ _). }
  repeat (split;
          [unfold PostsCopy1Crud.newPost, assign; cbn [foldl fst snd];
           by simplify_map_eq|]).
  split.
  - intros k Hk. unfold PostsCopy1Crud.newPost.
    rewrite assign_lookup_other by exact Hk.
    by rewrite spread_empty, lookup_fmap.
  - intros docRef Hadd.
    unfold PostsCopy1Crud.createPost, postsCollection, POSTS_COLLECTION.
    cbn [runOp]. unfold POSTS_COLLECTION in Hadd. by rewrite Hadd.
Qed.

Lemma createPost_sets_server_fields_witness :
  PostsCopy1Crud.newPost forged_input sample_user !! "authorId"
  = Some (Plain (JString "u1"))
  /\ PostsCopy1Crud.newPost forged_input sample_user !! "viewCount"
     = Some (Plain (JNumber 0))
  /\ PostsCopy1Crud.newPost forged_input sample_user !! "title"
     = Some (Plain (JString "T"))
  /\ (runOp sample_sdk (PostsCopy1Crud.createPost forged_input sample_user)).1
     = Fulfilled "new".
Proof.
  destruct (createPost_sets_server_fields sample_sdk forged_input sample_user)
    as (_ & Hauthor & _ & _ & _ & _ & _ & Hviews & _ & Hother & Hid).
  split; [exact Hauthor|]. split; [exact Hviews|]. split.
  - rewrite Hother; [reflexivity|].
    apply (bool_decide_unpack _). vm_compute. exact I.
  - apply (Hid (doc "posts" "new")). reflexivity.
Defined.

(** X4. [updatePost] makes one [updateDoc] request on the document of the
    post collection with the given identifier.  It writes the fields of
    the input and [updatedAt], which is always the server's timestamp,
    and no other field: [createdAt], the author and the view count are
    touched only if the input names them. *)
Theorem updatePost_writes_input_and_updatedAt
    (sdk : Sdk) (id : string) (postInput : JsObject) :
  exists data,
    (runOp sdk (PostsCopy1Crud.updatePost id postInput)).2
    = [ReqUpdateDoc (doc "posts" id) data]
    /\ data !! "updatedAt" = Some ServerTimestamp
    /\ (forall k, k <> "updatedAt" -> data !! k = Plain <$> postInput !! k)
    /\ dom data = {["updatedAt"]} ∪ dom postInput.
Proof.
  eexists. split.
  { unfold PostsCopy1Crud.updatePost, POSTS_COLLECTION. cbn [runOp].
    by destruct (sdk_updateDoc sdk _ _). }
  unfold assign. cbn [foldl fst snd]. rewrite spread_empty.
  split; [by rewrite lookup_insert_eq|]. split.
  - intros k Hk. by rewrite lookup_insert_ne, lookup_fmap.
  - by rewrite dom_insert_L, dom_fmap_L.
Qed.

(** X5. Each of [getPost], [createPost], [updatePost] and [deletePost]
    makes exactly one request, and when the store rejects it the call is
    rejected with the same error: nothing is caught or retried. *)
Theorem single_document_calls_propagate_rejection
    (sdk : Sdk) (e : FirestoreError) (id : string) (postInput : JsObject)
    (user : User) :
  (sdk_getDoc sdk (doc "posts" id) = Rejected e ->
   runOp sdk (PostsCopy1Crud.getPost id)
   = (Rejected e, [ReqGetDoc (doc "posts" id)]))
  /\ (sdk_addDoc sdk "posts" (PostsCopy1Crud.newPost postInput user)
      = Rejected e ->
      runOp sdk (PostsCopy1Crud.createPost postInput user)
      = (Rejected e,
         [ReqAddDoc "posts" (PostsCopy1Crud.newPost postInput user)]))
  /\ (sdk_updateDoc sdk (doc "posts" id)
        (assign (spread ∅ (Plain <$> postInput))
           [("updatedAt", ServerTimestamp)])
      = Rejected e ->
      (runOp sdk (PostsCopy1Crud.updatePost id postInput)).1 = Rejected e)
  /\ (sdk_deleteDoc sdk (doc "posts" id) = Rejected e ->
      runOp sdk (PostsCopy1Crud.deletePost id)
      = (Rejected e, [ReqDeleteDoc (doc "posts" id)]))
  /\ length (runOp sdk (PostsCopy1Crud.getPost id)).2 = 1
  /\ length (runOp sdk (PostsCopy1Crud.createPost postInput user)).2 = 1
  /\ length (runOp sdk (PostsCopy1Crud.updatePost id postInput)).2 = 1
  /\ (runOp sdk (PostsCopy1Crud.deletePost id)).2
     = [ReqDeleteDoc (doc "posts" id)].
Proof.
  split; [|split; [|split; [|split; [|split; [|split; [|split]]]]]].
  - intros Hrej. by rewrite run_getPost, Hrej.
  - intros Hrej.
    unfold PostsCopy1Crud.createPost, postsCollection, POSTS_COLLECTION.
    cbn [runOp]. unfold POSTS_COLLECTION in Hrej. by rewrite Hrej.
  - intros Hrej. unfold PostsCopy1Crud.updatePost, POSTS_COLLECTION.
    cbn [runOp]. by rewrite Hrej.
  - intros Hrej. unfold PostsCopy1Crud.deletePost, POSTS_COLLECTION.
    cbn [runOp]. by rewrite Hrej.
  - rewrite run_getPost. by destruct (sdk_getDoc sdk _).
  - unfold PostsCopy1Crud.createPost. cbn [runOp].
    by destruct (sdk_addDoc sdk _ _).
  - unfold PostsCopy1Crud.updatePost. cbn [runOp].
    by destruct (sdk_updateDoc sdk _ _).
  - unfold PostsCopy1Crud.deletePost, POSTS_COLLECTION. cbn [runOp].
    by destruct (sdk_deleteDoc sdk _).
Qed.

Lemma single_document_calls_propagate_rejection_witness :
  runOp failing_sdk (PostsCopy1Crud.getPost "d")
  = (Rejected unavailable, [ReqGetDoc (doc "posts" "d")])
  /\ runOp failing_sdk (PostsCopy1Crud.deletePost "d")
     = (Rejected unavailable, [ReqDeleteDoc (doc "posts" "d")]).
Proof.
  destruct (single_document_calls_propagate_rejection failing_sdk unavailable
              "d" ∅ sample_user) as (Hget & _ & _ & Hdel & _).
  split; [by apply Hget | by apply Hdel].
Defined.

(** X6. The functions on single documents of [posts.ts] and those of
    [posts copy 1.ts] are equivalent: against any store, each pair makes
    the same requests and settles alike. *)
Theorem single_document_calls_equivalent
    (sdk : Sdk) (id : string) (postInput : JsObject) (user : User) :
  runOp sdk (PostsCrud.getPost id) = runOp sdk (PostsCopy1Crud.getPost id)
  /\ runOp sdk (PostsCrud.createPost postInput user)
     = runOp sdk (PostsCopy1Crud.createPost postInput user)
  /\ runOp sdk (PostsCrud.updatePost id postInput)
     = runOp sdk (PostsCopy1Crud.updatePost id postInput)
  /\ runOp sdk (PostsCrud.deletePost id)
     = runOp sdk (PostsCopy1Crud.deletePost id).
Proof.
  split; [|by repeat split].
  unfold PostsCrud.getPost, PostsCopy1Crud.getPost. cbn [runOp].
  destruct (sdk_getDoc sdk _) as [docSnap|e]; [|done].
  by destruct (snap_exists docSnap).
Qed.

(** X7. List and detail agree on every field but possibly [id]: the
    summary [getPosts] makes of a document has, field by field, what
    [getPost] returns for it, and their [id]s agree exactly when the data
    has no [id] field of its own or one equal to the identifier. *)
Theorem summary_agrees_with_post (d : Doc) :
  (forall f,
      f ∈ PostSummary_fields -> f <> "id" ->
      prop (PostsCopy1.toPostSummary d) f
      = prop (PostsCopy1Crud.formatPost d) f)
  /\ (prop (PostsCopy1.toPostSummary d) "id"
      = prop (PostsCopy1Crud.formatPost d) "id"
      <-> doc_data d !! "id" = None
          \/ doc_data d !! "id" = Some (JString (doc_id d))).
Proof.
  split.
  - assert (H : Forall
                  (fun f => f <> "id" ->
                            prop (PostsCopy1.toPostSummary d) f
                            = prop (PostsCopy1Crud.formatPost d) f)
                  PostSummary_fields).
    { unfold PostSummary_fields.
      repeat (constructor;
              [intros Hne; unfold prop at 2;
               rewrite formatPost_lookup_other by exact Hne;
               try reflexivity; done|]).
      constructor. }
    intros f Hf. by apply (proj1 (Forall_forall _ _) H).
  - unfold prop at 2. rewrite formatPost_lookup_id.
    change (prop (PostsCopy1.toPostSummary d) "id") with (JString (doc_id d)).
    cbn [default from_option id].
    destruct (doc_data d !! "id") as [v|]; split.
    + intros <-. by right.
    + intros [|[= ->]]; done.
    + by left.
    + done.
Qed.

Lemma summary_agrees_with_post_witness :
  prop (PostsCopy1.toPostSummary sample_doc) "viewCount"
  = prop (PostsCopy1Crud.formatPost sample_doc) "viewCount"
  /\ prop (PostsCopy1.toPostSummary shadowing_doc) "id"
     <> prop (PostsCopy1Crud.formatPost shadowing_doc) "id".
Proof.
  split.
  - destruct (summary_agrees_with_post sample_doc) as (Hfields & _).
    apply Hfields; [|done].
    apply (bool_decide_unpack _). vm_compute. exact I.
  - destruct (summary_agrees_with_post shadowing_doc) as (_ & Hid).
    intros Heq. apply Hid in Heq as [Heq|Heq]; vm_compute in Heq;
      discriminate.
Defined.

(** ** Over-fetching *)

(** X8. When the store answers the query of a page with the first
    [limitCount + 1] of the documents that remain, [hasMore] is true
    exactly when more than [limitCount] documents remain, the items are
    those of the first [limitCount] remaining documents, and the cursor is
    the last of these: the extra document only decides [hasMore]. *)
Theorem hasMore_iff_documents_remain
    (getDocs : Query -> Outcome (list Doc)) (options : GetPostsOptions)
    (rest : list Doc) :
  (0 <= limitCountOf options)%Z ->
  getDocs (pageQuery options)
  = Fulfilled (take (Z.to_nat (limitCountOf options + 1)) rest) ->
  exists r,
    (run getDocs (getPostsWithOptions options)).1 = Fulfilled r
    /\ (hasMore r = true <-> Z.to_nat (limitCountOf options) < length rest)
    /\ posts r = toListItem <$> take (Z.to_nat (limitCountOf options)) rest
    /\ lastDoc r = last (take (Z.to_nat (limitCountOf options)) rest).
Proof.
  intros Hn Hdocs. rewrite run_getPostsWithOptions, Hdocs. cbn [fst].
  eexists. split; [reflexivity|]. rewrite pageOf_overfetch by done.
  destruct (decide (length rest <= Z.to_nat (limitCountOf options)))
    as [Hle|Hgt]; cbn [hasMore posts lastDoc].
  - rewrite take_ge by lia. split; [split; [done | lia]|done].
  - split; [split; [lia | done]|done].
Qed.

Lemma hasMore_iff_documents_remain_witness :
  exists r,
    (run (Store.getDocs sample_contents)
       (getPostsWithOptions (mkOptions (Some life) (Some 1%Z) None))).1
    = Fulfilled r
    /\ (hasMore r = true
        <-> 1 < length [sample_post "b" "life" 5; sample_post "e" "life" 2])
    /\ posts r = [toListItem (sample_post "b" "life" 5)]
    /\ lastDoc r = Some (sample_post "b" "life" 5).
Proof.
  apply (hasMore_iff_documents_remain (Store.getDocs sample_contents)
           (mkOptions (Some life) (Some 1%Z) None)
           [sample_post "b" "life" 5; sample_post "e" "life" 2]).
  - unfold limitCountOf. cbn. lia.
  - vm_compute. reflexivity.
Defined.

(** ** The post card *)

Lemma split_first (c : Ascii.ascii) (s : string) :
  exists piece pieces,
    split c s = piece :: pieces
    /\ occurs c piece = false
    /\ (s = piece \/ exists rest, s = piece +:+ String c rest).
Proof.
  induction s as [|a s IH].
  - exists EmptyString, []. split; [done|]. split; [done|]. by left.
  - cbn [split]. destruct (Ascii.eqb a c) eqn:Hac.
    + apply Ascii.eqb_eq in Hac as ->.
      exists EmptyString, (split c s). split; [done|]. split; [done|].
      right. by exists s.
    + destruct IH as (piece & pieces & -> & Hocc & Hcase).
      exists (String a piece), pieces. split; [done|]. split.
      * cbn [occurs]. by rewrite Hac, Hocc.
      * destruct Hcase as [->|[rest ->]]; [by left|].
        right. by exists rest.
Qed.

(** X9. The author name of a card is the display name whenever that is
    truthy.  Otherwise, for an e-mail address that is a string, it is the
    part before the first "@" (the whole address when it has none), and
    for anything else the card throws a type error. *)
Theorem getAuthorName_cases (post : JsObject) :
  (truthy (prop post "authorDisplayName") = true ->
   PostCard.getAuthorName post = Normal (prop post "authorDisplayName"))
  /\ (truthy (prop post "authorDisplayName") = false ->
      forall address,
        prop post "authorEmail" = JString address ->
        exists name,
          PostCard.getAuthorName post = Normal (JString name)
          /\ occurs at_sign name = false
          /\ (address = name
              \/ exists rest, address = name +:+ String at_sign rest))
  /\ (truthy (prop post "authorDisplayName") = false ->
      (forall address, prop post "authorEmail" <> JString address) ->
      PostCard.getAuthorName post = ThrowTypeError (prop post "authorEmail")).
Proof.
  unfold PostCard.getAuthorName. split; [|split].
  - by intros ->.
  - intros -> address ->.
    destruct (split_first at_sign address)
      as (name & pieces & -> & Hocc & Hcase).
    by exists name.
  - intros -> Hnot.
    destruct (prop post "authorEmail") as [| | | |address|] eqn:Hmail;
      try done.
    by destruct (Hnot address).
Qed.

Lemma getAuthorName_cases_witness :
  (exists name,
      PostCard.getAuthorName (toListItem sample_doc) = Normal (JString name)
      /\ occurs at_sign name = false
      /\ ("u1@example.org" = name
          \/ exists rest, "u1@example.org" = name +:+ String at_sign rest))
  /\ PostCard.getAuthorName (toListItem anonymous_post)
     = ThrowTypeError JNull.
Proof.
  split.
  - destruct (getAuthorName_cases (toListItem sample_doc)) as (_ & Hmail & _).
    apply Hmail; reflexivity.
  - destruct (getAuthorName_cases (toListItem anonymous_post))
      as (_ & _ & Hthrow).
    apply Hthrow; [reflexivity|]. intros address. vm_compute. discriminate.
Defined.

Lemma listed_field (f : string) :
  bool_decide (f ∈ ListItem_fields) = true -> f ∈ ListItem_fields.
Proof. apply bool_decide_eq_true_1. Qed.

Lemma item_agrees_with_summary (d : Doc) :
  forall f,
    f ∈ ListItem_fields ->
    prop (toListItem d) f = prop (PostsCopy1.toPostSummary d) f.
Proof.
  apply Forall_forall. unfold ListItem_fields. repeat constructor.
Qed.

(** X10. A card reads six fields of its post and nothing else: two posts
    that agree on [id], [title], [category], [authorEmail],
    [authorDisplayName] and [createdAt] give the same card, or fail alike.
    So the items of [getPostsWithOptions] and of the realtime listing give
    the cards that the full summaries of [getPosts] give. *)
Theorem PostCard_reads_list_fields
    (CATEGORY_LABELS : JsObject) (localeDate : Z -> Z -> string) :
  (forall p1 p2 : JsObject,
      (forall f, f ∈ ListItem_fields -> prop p1 f = prop p2 f) ->
      PostCard.PostCard CATEGORY_LABELS localeDate p1
      = PostCard.PostCard CATEGORY_LABELS localeDate p2)
  /\ (forall d,
        PostCard.PostCard CATEGORY_LABELS localeDate (toListItem d)
        = PostCard.PostCard CATEGORY_LABELS localeDate
            (PostsCopy1.toPostSummary d)).
Proof.
  assert (Hgen : forall p1 p2 : JsObject,
             (forall f, f ∈ ListItem_fields -> prop p1 f = prop p2 f) ->
             PostCard.PostCard CATEGORY_LABELS localeDate p1
             = PostCard.PostCard CATEGORY_LABELS localeDate p2).
  { intros p1 p2 Hagree.
    unfold PostCard.PostCard, PostCard.getAuthorName, PostCard.categoryTag.
    rewrite (Hagree "id"), (Hagree "title"), (Hagree "category"),
      (Hagree "authorEmail"), (Hagree "authorDisplayName"),
      (Hagree "createdAt")
      by (apply listed_field; vm_compute; reflexivity).
    reflexivity. }
  split; [exact Hgen|].
  intros d. apply Hgen, item_agrees_with_summary.
Qed.

Lemma PostCard_reads_list_fields_witness :
  PostCard.PostCard ∅ sample_localeDate (toListItem sample_doc)
  = PostCard.PostCard ∅ sample_localeDate (PostsCopy1.toPostSummary sample_doc).
Proof.
  destruct (PostCard_reads_list_fields ∅ sample_localeDate) as (Hgen & _).
  apply Hgen. intros f Hf. apply item_agrees_with_summary, Hf.
Defined.

Example sample_card :
  PostCard.PostCard (list_to_map [("tech", JString "Tech")])
    sample_localeDate (toListItem sample_doc)
  = Normal
      (Element "article" []
         [Element "Link" [("to", "/posts/d")]
            [Element "span" [] [Value (JString "Tech")];
             Element "h2" [] [Value (JString "Post d")];
             Element "div" []
               [Element "span" [] [Value (JString "u1")];
                Element "span" [] [Text "·"];
                Element "span" [] [Text "7"]]]]).
Proof. vm_compute. reflexivity. Qed.

(** ** From writing a post to its card *)

Lemma newPost_author (postInput : JsObject) (user : User) :
  PostsCopy1Crud.newPost postInput user !! "authorDisplayName"
  = Some (Plain (js_or (displayName user) JNull))
  /\ PostsCopy1Crud.newPost postInput user !! "authorEmail"
     = Some (Plain (email user)).
Proof.
  unfold PostsCopy1Crud.newPost, assign. cbn [foldl fst snd].
  split; by simplify_map_eq.
Qed.

Lemma stored_plain (w : WriteData) (d : Doc) (k : string) (v : JsValue) :
  stored_as_written w d k -> w !! k = Some (Plain v) ->
  prop (doc_data d) k = v.
Proof.
  unfold stored_as_written, prop. intros Hs Hw. rewrite Hw in Hs.
  destruct (doc_data d !! k) as [v'|]; [|done].
  by injection Hs as ->.
Qed.

(** X11. Take a document that holds the author fields as [createPost]
    wrote them for a user.  The card of its list item names the author by
    the user's display name if that is truthy, and else by the part of
    the user's e-mail address before the "@"; for a user with neither a
    display name nor an e-mail address that is a string, the card of the
    post throws a type error. *)
Theorem created_post_author_name
    (postInput : JsObject) (user : User) (d : Doc) :
  stored_as_written (PostsCopy1Crud.newPost postInput user) d
    "authorDisplayName" ->
  stored_as_written (PostsCopy1Crud.newPost postInput user) d
    "authorEmail" ->
  PostCard.getAuthorName (toListItem d)
  = if truthy (displayName user) then Normal (displayName user)
    else
      match email user with
      | JString address =>
          Normal (match split at_sign address !! 0 with
                  | Some piece => JString piece
                  | None => JUndefined
                  end)
      | v => ThrowTypeError v
      end.
Proof.
  intros Hname Hmail.
  destruct (newPost_author postInput user) as [Hwname Hwmail].
  pose proof (stored_plain _ _ _ _ Hname Hwname) as Hn.
  pose proof (stored_plain _ _ _ _ Hmail Hwmail) as Hm.
  unfold PostCard.getAuthorName.
  change (prop (toListItem d) "authorDisplayName")
    with (prop (doc_data d) "authorDisplayName").
  change (prop (toListItem d) "authorEmail")
    with (prop (doc_data d) "authorEmail").
  rewrite Hn, Hm. unfold js_or.
  destruct (truthy (displayName user)) eqn:Ht; [by rewrite Ht|].
  reflexivity.
Qed.

Lemma created_post_author_name_witness :
  PostCard.getAuthorName (toListItem anonymous_post) = ThrowTypeError JNull.
Proof.
  apply (created_post_author_name ∅ anonymous_user anonymous_post);
    vm_compute; reflexivity.
Defined.

(** ** Pages against the store *)

Lemma after_subseteq (cursor : Doc) (l rest : list Doc) :
  Store.after cursor l = Some rest -> rest ⊆ l.
Proof.
  revert rest. induction l as [|d l IH]; intros rest; [done|].
  cbn [Store.after]. destruct (decide _).
  - intros [= ->] x Hx. by right.
  - intros Hrest x Hx. right. by apply (IH rest).
Qed.

Lemma getDocs_pageQuery_subseteq contents options docs :
  Store.getDocs contents (pageQuery options) = Fulfilled docs ->
  docs ⊆ listing contents (opt_category options).
Proof.
  rewrite getDocs_pageQuery. unfold Store.resume, Store.bound.
  destruct (opt_lastDoc options) as [cursor|].
  - destruct (Store.after cursor _) as [rest|] eqn:Hafter; [|done].
    case_bool_decide; [|done]. intros [= <-] x Hx.
    apply subseteq_take in Hx. by apply (after_subseteq _ _ _ Hafter).
  - case_bool_decide; [|done]. intros [= <-]. apply subseteq_take.
Qed.

(** X12. Against the model of the store, a page asked for a category
    holds only items of that category: the filter is part of the query,
    and cursor, bound and over-fetch only take documents away. *)
Theorem page_items_have_the_category
    (contents : string -> list Doc) (options : GetPostsOptions)
    (c : Category) (r : GetPostsResult) :
  opt_category options = Some c ->
  (run (Store.getDocs contents) (getPostsWithOptions options)).1
  = Fulfilled r ->
  Forall (fun item => prop item "category" = JString (tag c)) (posts r).
Proof.
  intros Hc. rewrite run_getPostsWithOptions.
  destruct (Store.getDocs contents (pageQuery options)) as [docs|e] eqn:Hdocs;
    [|done].
  cbn [fst]. intros [= <-].
  destruct (pageOf_lastDoc (limitCountOf options) docs)
    as (returned & -> & _ & Hsub).
  apply Forall_fmap, Forall_forall. intros d Hd.
  apply Hsub, (getDocs_pageQuery_subseteq _ _ _ Hdocs) in Hd.
  rewrite Hc, listing_Permutation in Hd.
  apply list_elem_of_filter in Hd as [[Hsat _] _].
  unfold Store.satisfies, category_clauses in Hsat.
  apply Forall_cons in Hsat as [Hcat _]. cbn [fst snd] in Hcat.
  cbn [compose].
  change (prop (toListItem d) "category") with (prop (doc_data d) "category").
  unfold prop. by rewrite Hcat.
Qed.

Lemma page_items_have_the_category_witness :
  Forall (fun item => prop item "category" = JString "life")
    (posts (pageOf 5 [sample_post "b" "life" 5; sample_post "e" "life" 2])).
Proof.
  apply (page_items_have_the_category sample_contents
           (mkOptions (Some life) None None) life).
  - reflexivity.
  - vm_compute. reflexivity.
Defined.

(** X13. Against the model of the store, a subscription and the first
    page of the same category and size show the same posts: the callback
    of [subscribeToPostsRealtime] is first invoked with exactly the items
    that [getPostsWithOptions] returns without cursor. *)
Theorem first_page_is_initial_snapshot
    (s : Store.State) (category : option Category) (n : Z)
    (callback : string) :
  (1 <= n)%Z ->
  exists r,
    (run (Store.getDocs (Store.contents s))
       (getPostsWithOptions (mkOptions category (Some n) None))).1
    = Fulfilled r
    /\ (subscribeToPostsRealtime Store.onSnapshot callback
          (mkSubscribeOptions category (Some n)) s).2
       = [(Store.next_handle s, invoke callback (posts r))].
Proof.
  intros Hn.
  rewrite (run_page (Store.contents s) category n Hn None
             (listing (Store.contents s) category)) by done.
  eexists. split; [reflexivity|].
  unfold subscribeToPostsRealtime, Store.onSnapshot.
  rewrite getDocs_standingQuery by done. cbn [snd fmap list_fmap].
  rewrite pageOf_overfetch by lia. unfold currentResult.
  cbn [sub_category sub_limitCount subLimitCountOf].
  destruct (decide (length (listing (Store.contents s) category)
                    <= Z.to_nat n)); cbn [posts]; [|done].
  by rewrite take_ge by lia.
Qed.

Lemma first_page_is_initial_snapshot_witness :
  exists r,
    (run (Store.getDocs sample_contents)
       (getPostsWithOptions (mkOptions (Some tech) (Some 2%Z) None))).1
    = Fulfilled r
    /\ (subscribeToPostsRealtime Store.onSnapshot "render"
          (mkSubscribeOptions (Some tech) (Some 2%Z)) sample_store).2
       = [(0, invoke "render" (posts r))].
Proof.
  apply (first_page_is_initial_snapshot sample_store (Some tech) 2 "render").
  lia.
Defined.
